(** * DynamicDB: a JSON key/value store over host dynamic properties

    Shallow embedding of [Systems/DataCollection/DynamicDB.ts] of BlockCore
    and of the parts of its environment the class relies on: the
    script values it stores, the JSON codec of the host language, the
    dynamic-property bag of a [World], [Player] or [Entity], the validator
    and the logger.

    Layout: script values; completions and the heap-passing monad; the JSON
    codec; the host property bag; [Validator] and [Logger]; the class
    [DynamicDB]; then the lemmas about the codec and the host, and the
    theorems about the class. *)

From Stdlib Require Import String Ascii List ZArith NArith Arith Bool Lia.
From Stdlib Require Import Decimal DecimalFacts DecimalN DecimalString.
Import ListNotations.

Local Open Scope list_scope.
Local Open Scope string_scope.

#[local] Set Warnings "-register-all".

(* ================================================================== *)
(** ** Script values *)

(** The values a script can hand to the store or get back from it.  An
    object is the list of its own enumerable properties in the order they
    were defined (the language lists integer-like names first; the model
    does not reorder, which shows in the order of a written text only).
    A string is a sequence of 8-bit code units, so its length is also its
    byte count.  [VNumber n] is the number [n] for a safe integer [n]
    (|n| < 2^53): fractions, NaN and the infinities are floating point and
    have no constructor.  [VBigInt] is there because the codec refuses it. *)
Inductive JsValue : Type :=
| VUndefined
| VNull
| VBool (b : bool)
| VNumber (n : Z)
| VBigInt (n : Z)
| VString (s : string)
| VArray (elems : list JsValue)
| VObject (props : list (string * JsValue)).

(** The double quote, written by code so that no literal has to hold one. *)
Definition dquote : ascii := ascii_of_nat 34.
Definition backslash : ascii := ascii_of_nat 92.

(** Decimal digits of a natural number, as the language prints them. *)
Definition decimal (n : N) : string := NilZero.string_of_uint (N.to_uint n).

Definition index_name (i : nat) : string := decimal (N.of_nat i).

(** Property lookup [o[k]]. *)
Fixpoint lookup {A : Type} (k : string) (ps : list (string * A)) : option A :=
  match ps with
  | [] => None
  | (k', v) :: rest => if String.eqb k k' then Some v else lookup k rest
  end.

(** [CreateDataProperty(o, k, v)]: an existing property keeps its place and
    takes the new value, a new one goes last. *)
Fixpoint define_property {A : Type} (k : string) (v : A)
    (ps : list (string * A)) : list (string * A) :=
  match ps with
  | [] => [(k, v)]
  | (k', v') :: rest =>
      if String.eqb k k' then (k', v) :: rest
      else (k', v') :: define_property k v rest
  end.

Definition define_all {A : Type} (src target : list (string * A)) :
    list (string * A) :=
  fold_left (fun acc kv => define_property (fst kv) (snd kv) acc) src target.

Fixpoint indexed {A : Type} (i : nat) (xs : list A) : list (string * A) :=
  match xs with
  | [] => []
  | x :: rest => (index_name i, x) :: indexed (S i) rest
  end.

Fixpoint chars_of (s : string) : list JsValue :=
  match s with
  | EmptyString => []
  | String c rest => VString (String c EmptyString) :: chars_of rest
  end.

(** The own enumerable properties an object spread [{...v}] copies:
    nothing for [undefined], [null] and the other primitives, the indices
    of an array or of a string, the properties of an object. *)
Definition own_properties (v : JsValue) : list (string * JsValue) :=
  match v with
  | VObject ps => ps
  | VArray xs => indexed 0 xs
  | VString s => indexed 0 (chars_of s)
  | _ => []
  end.

(** The object literal [{ ...a, ...b }]. *)
Definition spread2 (a b : JsValue) : JsValue :=
  VObject (define_all (own_properties b) (define_all (own_properties a) [])).

(* ================================================================== *)
(** ** Completions and the heap-passing monad *)

Inductive Exn : Type :=
| TypeError (msg : string)
| SyntaxError (msg : string)
| HostError (msg : string).

(** How a call ends: normally, by a throw, or, for the loops that the model
    bounds by a fuel, by using the fuel up. *)
Inductive Completion (A : Type) : Type :=
| Normal (a : A)
| Throw (e : Exn)
| OutOfFuel.
Arguments Normal {A} a.
Arguments Throw {A} e.
Arguments OutOfFuel {A}.

Section Monad.
Variable Heap : Type.

Definition M (A : Type) : Type := Heap -> Completion A * Heap.

Definition ret {A} (a : A) : M A := fun h => (Normal a, h).

Definition throw {A} (e : Exn) : M A := fun h => (Throw e, h).

Definition out_of_fuel {A} : M A := fun h => (OutOfFuel, h).

Definition bind {A B} (m : M A) (k : A -> M B) : M B :=
  fun h =>
    match m h with
    | (Normal a, h') => k a h'
    | (Throw e, h') => (Throw e, h')
    | (OutOfFuel, h') => (OutOfFuel, h')
    end.

(** [try { body } catch (error) { handler }]: what the body did to the
    heap before it threw stays done. *)
Definition try_catch {A} (body : M A) (handler : Exn -> M A) : M A :=
  fun h =>
    match body h with
    | (Throw e, h') => handler e h'
    | r => r
    end.

Definition lift {A} (c : Completion A) : M A := fun h => (c, h).
End Monad.

Arguments ret {Heap A} a.
Arguments throw {Heap A} e.
Arguments out_of_fuel {Heap A}.
Arguments bind {Heap A B} m k.
Arguments try_catch {Heap A} body handler.
Arguments lift {Heap A} c.

Declare Scope js_scope.
Delimit Scope js_scope with js.
Notation "x <- m ;; k" := (bind m (fun x => k))
  (at level 61, m at next level, right associativity) : js_scope.
Notation "m ;;; k" := (bind m (fun _ => k))
  (at level 61, right associativity) : js_scope.

(** Binding on bare completions, for the code that touches no heap. *)
Definition cbind {A B} (c : Completion A) (k : A -> Completion B) :
    Completion B :=
  match c with
  | Normal a => k a
  | Throw e => Throw e
  | OutOfFuel => OutOfFuel
  end.

(* ================================================================== *)
(** ** The JSON codec of the host language *)

Module JSON.

(** *** Writing *)

Definition number_text (n : Z) : string :=
  if (n <? 0)%Z then String "-" (decimal (Z.to_N (- n)))
  else decimal (Z.to_N n).

Definition hex_digit (n : nat) : ascii :=
  if (n <? 10)%nat then ascii_of_nat (48 + n) else ascii_of_nat (87 + n).

(** One code unit of [QuoteJSONString].  The two-character literals
    below are a backslash and a letter: Rocq strings have no escapes. *)
Definition quote_char (c : ascii) : string :=
  let n := nat_of_ascii c in
  if (n =? 34)%nat then String backslash (String dquote "")
  else if (n =? 92)%nat then String backslash (String backslash "")
  else if (n =? 8)%nat then "\b"
  else if (n =? 9)%nat then "\t"
  else if (n =? 10)%nat then "\n"
  else if (n =? 12)%nat then "\f"
  else if (n =? 13)%nat then "\r"
  else if (n <? 32)%nat then
    "\u00" ++ String (hex_digit (n / 16)) (String (hex_digit (n mod 16)) "")
  else String c "".

Fixpoint quote_chars (s : string) : string :=
  match s with
  | EmptyString => ""
  | String c rest => quote_char c ++ quote_chars rest
  end.

Definition quote (s : string) : string :=
  String dquote (quote_chars s ++ String dquote "").

(** [SerializeJSONProperty] without indentation: [None] is the
    [undefined] that makes an object drop the property and an array
    write [null]. *)
Fixpoint serialize (v : JsValue) : Completion (option string) :=
  match v with
  | VUndefined => Normal None
  | VNull => Normal (Some "null")
  | VBool b => Normal (Some (if b then "true" else "false"))
  | VNumber n => Normal (Some (number_text n))
  | VBigInt _ => Throw (TypeError "Do not know how to serialize a BigInt")
  | VString s => Normal (Some (quote s))
  | VArray xs =>
      cbind
        ((fix elements (xs : list JsValue) : Completion (list string) :=
            match xs with
            | [] => Normal []
            | x :: rest =>
                cbind (serialize x) (fun t =>
                cbind (elements rest) (fun ts =>
                Normal (match t with Some t => t | None => "null" end
                        :: ts)))
            end) xs)
        (fun ts => Normal (Some ("[" ++ String.concat "," ts ++ "]")))
  | VObject ps =>
      cbind
        ((fix members (ps : list (string * JsValue)) :
              Completion (list string) :=
            match ps with
            | [] => Normal []
            | (k, x) :: rest =>
                cbind (serialize x) (fun t =>
                cbind (members rest) (fun ts =>
                Normal (match t with
                        | Some t => (quote k ++ ":" ++ t) :: ts
                        | None => ts
                        end)))
            end) ps)
        (fun ts => Normal (Some ("{" ++ String.concat "," ts ++ "}")))
  end.

(** [JSON.stringify(value)]: a text, [undefined], or a [TypeError]. *)
Definition stringify (v : JsValue) : Completion (option string) :=
  serialize v.

(** *** Reading *)

Definition is_ws (c : ascii) : bool :=
  let n := nat_of_ascii c in
  ((n =? 32) || (n =? 9) || (n =? 10) || (n =? 13))%nat.

Fixpoint skip_ws (s : string) : string :=
  match s with
  | String c rest => if is_ws c then skip_ws rest else s
  | EmptyString => s
  end.

Definition digit_of (c : ascii) : option (uint -> uint) :=
  match nat_of_ascii c - 48 with
  | 0 => if (nat_of_ascii c =? 48)%nat then Some D0 else None
  | 1 => Some D1 | 2 => Some D2 | 3 => Some D3 | 4 => Some D4
  | 5 => Some D5 | 6 => Some D6 | 7 => Some D7 | 8 => Some D8
  | 9 => Some D9
  | _ => None
  end.

Fixpoint parse_digits (s : string) : uint * string :=
  match s with
  | EmptyString => (Nil, s)
  | String c rest =>
      match digit_of c with
      | Some d => let (u, rest') := parse_digits rest in (d u, rest')
      | None => (Nil, s)
      end
  end.

(** The integer part of a JSON number: a lone [0] or digits that do not
    start with [0].  A fraction or an exponent would denote a
    floating-point number, for which the model has no value; the reader
    stops in front of it. *)
Definition parse_natural (s : string) : option (N * string) :=
  let (u, rest) := parse_digits s in
  match u with
  | Nil => None
  | D0 Nil => Some (0%N, rest)
  | D0 _ => None
  | _ => Some (N.of_uint u, rest)
  end.

Definition hex_value (c : ascii) : option nat :=
  let n := nat_of_ascii c in
  if ((48 <=? n) && (n <=? 57))%nat then Some (n - 48)
  else if ((97 <=? n) && (n <=? 102))%nat then Some (n - 87)
  else if ((65 <=? n) && (n <=? 70))%nat then Some (n - 55)
  else None.

(** [\uXXXX]: the model's strings hold 8-bit code units only. *)
Definition unicode_escape (h1 h2 h3 h4 : ascii) : option ascii :=
  match hex_value h1, hex_value h2, hex_value h3, hex_value h4 with
  | Some 0, Some 0, Some a, Some b => Some (ascii_of_nat (16 * a + b))
  | _, _, _, _ => None
  end.

Definition simple_escape (e : ascii) : option ascii :=
  let n := nat_of_ascii e in
  if (n =? 34)%nat then Some dquote
  else if (n =? 92)%nat then Some backslash
  else if (n =? 47)%nat then Some "/"%char
  else if (n =? 98)%nat then Some (ascii_of_nat 8)
  else if (n =? 116)%nat then Some (ascii_of_nat 9)
  else if (n =? 110)%nat then Some (ascii_of_nat 10)
  else if (n =? 102)%nat then Some (ascii_of_nat 12)
  else if (n =? 114)%nat then Some (ascii_of_nat 13)
  else None.

Definition prepend (c : ascii) (r : option (string * string)) :
    option (string * string) :=
  match r with
  | Some (s, rest) => Some (String c s, rest)
  | None => None
  end.

(** The characters of a string literal after its opening quote, up to
    and including the closing one. *)
Fixpoint parse_chars (s : string) : option (string * string) :=
  match s with
  | EmptyString => None
  | String c r =>
      if Ascii.eqb c dquote then Some (EmptyString, r)
      else if Ascii.eqb c backslash then
        match r with
        | EmptyString => None
        | String e r1 =>
            if Ascii.eqb e "u" then
              match r1 with
              | String h1 (String h2 (String h3 (String h4 r2))) =>
                  match unicode_escape h1 h2 h3 h4 with
                  | Some c' => prepend c' (parse_chars r2)
                  | None => None
                  end
              | _ => None
              end
            else
              match simple_escape e with
              | Some c' => prepend c' (parse_chars r1)
              | None => None
              end
        end
      else if (nat_of_ascii c <? 32)%nat then None
      else prepend c (parse_chars r)
  end.

Fixpoint strip_prefix (p s : string) : option string :=
  match p, s with
  | EmptyString, _ => Some s
  | String a p', String b s' =>
      if Ascii.eqb a b then strip_prefix p' s' else None
  | String _ _, EmptyString => None
  end.

Definition parse_literal (s : string) : option (JsValue * string) :=
  match strip_prefix "true" s with
  | Some rest => Some (VBool true, rest)
  | None =>
  match strip_prefix "false" s with
  | Some rest => Some (VBool false, rest)
  | None =>
  match strip_prefix "null" s with
  | Some rest => Some (VNull, rest)
  | None => None
  end end end.

Definition parse_number (s : string) : option (JsValue * string) :=
  match s with
  | String c rest =>
      if Ascii.eqb c "-" then
        match parse_natural rest with
        | Some (n, rest') => Some (VNumber (- Z.of_N n), rest')
        | None => None
        end
      else
        match parse_natural s with
        | Some (n, rest') => Some (VNumber (Z.of_N n), rest')
        | None => None
        end
  | EmptyString => None
  end.

(** Recursive descent over the grammar; every call spends one unit of
    fuel.  [parse_members] returns the members in text order. *)
Fixpoint parse_value (fuel : nat) (s : string) :
    option (JsValue * string) :=
  match fuel with
  | 0 => None
  | S f =>
      match skip_ws s with
      | EmptyString => None
      | String c r =>
          if Ascii.eqb c "{" then
            match skip_ws r with
            | EmptyString => None
            | String c' r' =>
                if Ascii.eqb c' "}" then Some (VObject [], r')
                else
                  match parse_members f r with
                  | Some (ms, rest) =>
                      Some (VObject (define_all ms []), rest)
                  | None => None
                  end
            end
          else if Ascii.eqb c "[" then
            match skip_ws r with
            | EmptyString => None
            | String c' r' =>
                if Ascii.eqb c' "]" then Some (VArray [], r')
                else
                  match parse_elements f r with
                  | Some (xs, rest) => Some (VArray xs, rest)
                  | None => None
                  end
            end
          else if Ascii.eqb c dquote then
            match parse_chars r with
            | Some (str, rest) => Some (VString str, rest)
            | None => None
            end
          else if Ascii.eqb c "t" || Ascii.eqb c "f" || Ascii.eqb c "n"
          then parse_literal (String c r)
          else parse_number (String c r)
      end
  end
with parse_elements (fuel : nat) (s : string) :
    option (list JsValue * string) :=
  match fuel with
  | 0 => None
  | S f =>
      match parse_value f s with
      | None => None
      | Some (x, r) =>
          match skip_ws r with
          | EmptyString => None
          | String c r' =>
              if Ascii.eqb c "," then
                match parse_elements f r' with
                | Some (xs, rest) => Some (x :: xs, rest)
                | None => None
                end
              else if Ascii.eqb c "]" then Some ([x], r')
              else None
          end
      end
  end
with parse_members (fuel : nat) (s : string) :
    option (list (string * JsValue) * string) :=
  match fuel with
  | 0 => None
  | S f =>
      match skip_ws s with
      | EmptyString => None
      | String q r =>
          if negb (Ascii.eqb q dquote) then None
          else
            match parse_chars r with
            | None => None
            | Some (k, r1) =>
                match skip_ws r1 with
                | EmptyString => None
                | String c r2 =>
                    if negb (Ascii.eqb c ":") then None
                    else
                      match parse_value f r2 with
                      | None => None
                      | Some (x, r3) =>
                          match skip_ws r3 with
                          | EmptyString => None
                          | String c' r4 =>
                              if Ascii.eqb c' "," then
                                match parse_members f r4 with
                                | Some (ms, rest) =>
                                    Some ((k, x) :: ms, rest)
                                | None => None
                                end
                              else if Ascii.eqb c' "}" then
                                Some ([(k, x)], r4)
                              else None
                          end
                      end
                end
            end
      end
  end.

(** [JSON.parse(text)]: the value, or a [SyntaxError] when the text is
    not one JSON value followed by nothing but white space.  The fuel is
    one more than the length of the text. *)
Definition parse (text : string) : Completion JsValue :=
  match parse_value (S (String.length text)) text with
  | Some (v, rest) =>
      match skip_ws rest with
      | EmptyString => Normal v
      | String _ _ => Throw (SyntaxError "Unexpected non-whitespace character after JSON")
      end
  | None => Throw (SyntaxError "Unexpected token in JSON")
  end.

End JSON.

(* ================================================================== *)
(** ** The host: owners, their property bags, the logger's sink *)

(** The host is the scripting API the class imports [World], [Player]
    and [Entity] from.  It is modelled by the interface the spec lists for
    the property backend: get, set and clear by key, enumerate the keys,
    clear all, total byte count, with texts for slot values. *)

(** The three host classes the store accepts. *)
Inductive HostClass : Type := World | Player | Entity.

(** The host objects that carry dynamic properties. *)
Inductive Owner : Type :=
| TheWorld
| APlayer (id : nat)
| AnEntity (id : nat).

(** What a caller can pass where the constructor expects an owner: the
    parameter is typed [World | Entity | Player] but checked at run time. *)
Inductive ScriptObject : Type :=
| HostObject (o : Owner)
| PlainValue (v : JsValue).

(** [x instanceof c]; a player is an entity too, as in the host API. *)
Definition instanceof (x : ScriptObject) (c : HostClass) : bool :=
  match x, c with
  | HostObject TheWorld, World => true
  | HostObject (APlayer _), Player => true
  | HostObject (APlayer _), Entity => true
  | HostObject (AnEntity _), Entity => true
  | _, _ => false
  end.

Definition Owner_eqb (a b : Owner) : bool :=
  match a, b with
  | TheWorld, TheWorld => true
  | APlayer i, APlayer j => Nat.eqb i j
  | AnEntity i, AnEntity j => Nat.eqb i j
  | _, _ => false
  end.

(** One record handed to the logger. *)
Record Diagnostic : Type := {
  diag_unit : string;
  diag_location : string;
  diag_message : string
}.

(** The physical slots of one owner, in enumeration order. *)
Definition PropertyBag : Type := list (string * string).

(** Everything outside the store instance: the property bag of every
    owner, the per-slot byte limit of the host, whether the framework runs
    in developer mode, and what the logger has printed. *)
Record Heap : Type := {
  bags : Owner -> PropertyBag;
  slot_limit : nat;
  dev_mode : bool;
  console : list Diagnostic
}.

Definition JS (A : Type) : Type := M Heap A.

Local Open Scope js_scope.

Module Host.

Definition with_bag (h : Heap) (o : Owner) (b : PropertyBag) : Heap :=
  {| bags := fun o' => if Owner_eqb o o' then b else bags h o';
     slot_limit := slot_limit h;
     dev_mode := dev_mode h;
     console := console h |}.

(** Clearing a slot. *)
Definition remove (identifier : string) (b : PropertyBag) : PropertyBag :=
  filter (fun kv => negb (String.eqb identifier (fst kv))) b.

(** The byte count of a bag: the bytes of its slot ids and texts, none
    for an empty bag. *)
Definition total_bytes (b : PropertyBag) : nat :=
  fold_right
    (fun kv acc => String.length (fst kv) + String.length (snd kv) + acc)%nat
    0%nat b.

(** The host converts its arguments natively: an identifier that is not
    a string is refused with a [TypeError]. *)
Definition identifier_of (key : JsValue) : JS string :=
  match key with
  | VString s => ret s
  | _ => throw (TypeError "Native type conversion failed")
  end.

Definition getDynamicProperty (o : Owner) (key : JsValue) :
    JS (option string) :=
  identifier <- identifier_of key ;;
  fun h => (Normal (lookup identifier (bags h o)), h).

(** [setDynamicProperty(identifier, value?)]: without a value the slot
    is cleared; a text longer than the slot limit is refused by a throw
    and nothing is written.  A ceiling on the total bytes of an owner,
    which the spec also mentions, is not modelled: the slot limit is the
    only ground on which this host refuses a write. *)
Definition setDynamicProperty (o : Owner) (key : JsValue)
    (value : option string) : JS unit :=
  identifier <- identifier_of key ;;
  fun h =>
    match value with
    | None => (Normal tt, with_bag h o (remove identifier (bags h o)))
    | Some text =>
        if (slot_limit h <? String.length text)%nat then
          (Throw (HostError "Dynamic property value is too large"), h)
        else
          (Normal tt,
           with_bag h o (define_property identifier text (bags h o)))
    end.

Definition getDynamicPropertyIds (o : Owner) : JS (list string) :=
  fun h => (Normal (map fst (bags h o)), h).

Definition getDynamicPropertyTotalByteCount (o : Owner) : JS nat :=
  fun h => (Normal (total_bytes (bags h o)), h).

Definition clearDynamicProperties (o : Owner) : JS unit :=
  fun h => (Normal tt, with_bag h o []).

(** A method call [receiver.m(...)]: [undefined] has no properties, a
    value that is no host object has no such method. *)
Definition call {A} (receiver : option ScriptObject)
    (method : Owner -> JS A) : JS A :=
  match receiver with
  | None => throw (TypeError "Cannot read properties of undefined")
  | Some (PlainValue _) => throw (TypeError "is not a function")
  | Some (HostObject o) => method o
  end.

End Host.

(* ================================================================== *)
(** ** Validator and Logger *)

Module Validator.

(** Modelled from the spec: [Utilities/Validator] is not part of the
    sources at hand; the spec describes it as pure predicates that
    reject malformed input.  [isString] holds of strings only. *)
Definition isString (v : JsValue) : bool :=
  match v with VString _ => true | _ => false end.

(** Modelled from the spec: [Validator.isObject] is missing; the spec
    has [set] check that the value is a structured object, which a
    primitive such as a string is not. *)
Definition isObject (v : JsValue) : bool :=
  match v with VObject _ => true | _ => false end.

(** Modelled from the spec: [Validator.isUndefined] is missing; it
    holds of [undefined] only. *)
Definition isUndefined (v : JsValue) : bool :=
  match v with VUndefined => true | _ => false end.

End Validator.

Module Logger.

(** Modelled from the spec: [Systems/Logger] is not part of the sources
    at hand; a logger is a handle on the console. *)
Inductive t : Type := Dev.

(** Modelled from the spec: [Logger.DevMode] is missing.  The class
    keeps its result in the optional field [_Logger] and calls it through
    [?.], so it may be [undefined]; here the heap says whether the
    framework runs in developer mode. *)
Definition DevMode : JS (option t) :=
  fun h => (Normal (if dev_mode h then Some Dev else None), h).

(** Modelled from the spec: [Logger.Danger] is missing; the spec has the
    logger accept records [{unit, location, message}] at the danger
    severity, and it is a sink only. *)
Definition Danger (l : t) (d : Diagnostic) : JS unit :=
  fun h =>
    (Normal tt,
     {| bags := bags h; slot_limit := slot_limit h;
        dev_mode := dev_mode h; console := console h ++ [d] |}).

End Logger.

(* ================================================================== *)
(** ** Iterators *)

(** What one [next()] of a generator gives back. *)
Inductive IteratorResult (A : Type) : Type :=
| Yielded (a : A)
| Finished.
Arguments Yielded {A} a.
Arguments Finished {A}.

(** The text of a key inside a template literal.  Both uses come after
    the [isString] guard; the conversion of other values is not
    modelled. *)
Definition string_of (v : JsValue) : string :=
  match v with
  | VString s => s
  | _ => ""
  end.

(** [ToString] of what the host returned for a slot. *)
Definition text_of (slot : option string) : string :=
  match slot with
  | Some text => text
  | None => "undefined"
  end.

(** [Array.prototype.includes] on an array of strings. *)
Definition includes (xs : list string) (key : JsValue) : bool :=
  match key with
  | VString s => existsb (String.eqb s) xs
  | _ => false
  end.

(** [xs[i]], [undefined] past the end. *)
Definition element (xs : list string) (i : nat) : JsValue :=
  match nth_error xs i with
  | Some s => VString s
  | None => VUndefined
  end.

(* ================================================================== *)
(** ** The class DynamicDB *)

Module DynamicDB.

(** The two private fields; an unassigned field reads as [undefined]. *)
Record t : Type := {
  PROPERTIES : option ScriptObject;
  _Logger : option Logger.t
}.

Definition IsInstanceOfType (type : ScriptObject) : bool :=
  instanceof type World || instanceof type Player || instanceof type Entity.

Definition log (this : t) (unit location message : string) :
    JS Datatypes.unit :=
  match _Logger this with
  | Some logger =>
      Logger.Danger logger
        {| diag_unit := unit; diag_location := location;
           diag_message := message |}
  | None => ret tt
  end.

Definition constructor (type : ScriptObject) : JS t :=
  logger <- Logger.DevMode ;;
  let this := {| PROPERTIES := None; _Logger := logger |} in
  if negb (IsInstanceOfType type) then
    log this "DynamicDB" "constructor"
      "Type must be an instance of Player, Entity, or World." ;;;
    ret this
  else
    ret {| PROPERTIES := Some type; _Logger := _Logger this |}.

Definition bytes (this : t) : JS nat :=
  Host.call (PROPERTIES this) Host.getDynamicPropertyTotalByteCount.

Definition keys (this : t) : JS (list string) :=
  Host.call (PROPERTIES this) Host.getDynamicPropertyIds.

Definition hasKey (this : t) (key : JsValue) : JS bool :=
  ks <- keys this ;;
  ret (includes ks key).

Definition get (this : t) (key : JsValue) : JS JsValue :=
  if negb (Validator.isString key) then
    log this "DynamicDB" "get" "Key must be a string." ;;;
    ret VUndefined
  else
    present <- hasKey this key ;;
    if negb present then
      log this "DynamicDB" "get"
        ("Key with name '" ++ string_of key ++ "' doesn't exist.") ;;;
      ret VUndefined
    else
      dynamic_props <-
        Host.call (PROPERTIES this)
          (fun o => Host.getDynamicProperty o key) ;;
      lift (JSON.parse (text_of dynamic_props)).

Definition set (this : t) (key : JsValue) (data : JsValue) : JS bool :=
  if negb (Validator.isString key) then
    log this "DynamicDB" "set" "Key must be a string." ;;;
    ret false
  else if negb (Validator.isObject data) then
    log this "DynamicDB" "set" "Data must be a object." ;;;
    ret false
  else
    try_catch
      (json_data <- lift (JSON.stringify data) ;;
       Host.call (PROPERTIES this)
         (fun o => Host.setDynamicProperty o key json_data) ;;;
       ret true)
      (fun error =>
         log this "DynamicDB" "set" "Failed to serialize data." ;;;
         ret false).

Definition dataMerge (this : t) (existing newData : JsValue) : JsValue :=
  spread2 existing newData.

Definition push (this : t) (key : JsValue) (data : JsValue) : JS bool :=
  if negb (Validator.isString key) then
    log this "DynamicDB" "push" "Key must be a string." ;;;
    ret false
  else if negb (Validator.isObject data) then
    log this "DynamicDB" "push" "Data must be a object." ;;;
    ret false
  else
    existing <- get this key ;;
    let merged := dataMerge this existing data in
    set this key merged.

Definition delete (this : t) (key : JsValue) : JS bool :=
  if negb (Validator.isString key) then
    log this "DynamicDB" "delete" "Key must be a string." ;;;
    ret false
  else
    present <- hasKey this key ;;
    if negb present then
      log this "DynamicDB" "delete"
        ("Key with name '" ++ string_of key ++ "' doesn't exist.") ;;;
      ret false
    else
      Host.call (PROPERTIES this)
        (fun o => Host.setDynamicProperty o key None) ;;;
      ret true.

Definition reset (this : t) : JS unit :=
  Host.call (PROPERTIES this) Host.clearDynamicProperties.

(** The generator [entries]: its only local is [key_idx].  One
    [next()] runs the loop from [key_idx] to the next [yield] (the
    [key_idx++] after the [yield] is folded into the state handed
    back) or to the end.  Calling [entries()] runs nothing and makes a
    generator at [key_idx = 0]. *)
Fixpoint entries_next (fuel : nat) (this : t) (key_idx : nat) :
    JS (IteratorResult (JsValue * JsValue) * nat) :=
  match fuel with
  | 0 => out_of_fuel
  | S fuel' =>
      ks <- keys this ;;
      if (key_idx <? List.length ks)%nat then
        ks' <- keys this ;;
        let key := element ks' key_idx in
        value <- get this key ;;
        if Validator.isUndefined value then
          entries_next fuel' this (S key_idx)
        else ret (Yielded (key, value), S key_idx)
      else ret (Finished, key_idx)
  end.

(** [[...this.entries()]]: a fresh generator driven to its end. *)
Fixpoint entries_from (fuel : nat) (this : t) (key_idx : nat) :
    JS (list (JsValue * JsValue)) :=
  match fuel with
  | 0 => out_of_fuel
  | S fuel' =>
      r <- entries_next fuel this key_idx ;;
      match r with
      | (Yielded entry, key_idx') =>
          rest <- entries_from fuel' this key_idx' ;;
          ret (entry :: rest)
      | (Finished, _) => ret []
      end
  end.

Definition entries_arr (fuel : nat) (this : t) :
    JS (list (JsValue * JsValue)) :=
  entries_from fuel this 0.

(** The generator [values]: before its first [next()] nothing has run;
    afterwards its locals are [entries_arr] and [entries_idx]. *)
Inductive ValuesState : Type :=
| ValuesFresh
| ValuesAt (entries_arr : list (JsValue * JsValue)) (entries_idx : nat).

Definition values_loop (entries_arr : list (JsValue * JsValue))
    (entries_idx : nat) : JS (IteratorResult JsValue * ValuesState) :=
  if (entries_idx <? List.length entries_arr)%nat then
    match nth_error entries_arr entries_idx with
    | Some (_, value) =>
        ret (Yielded value, ValuesAt entries_arr (S entries_idx))
    | None => throw (TypeError "undefined is not iterable")
    end
  else ret (Finished, ValuesAt entries_arr entries_idx).

Definition values_next (fuel : nat) (this : t) (st : ValuesState) :
    JS (IteratorResult JsValue * ValuesState) :=
  match st with
  | ValuesFresh =>
      arr <- entries_arr fuel this ;;
      values_loop arr 0
  | ValuesAt arr idx => values_loop arr idx
  end.

(** The [while] loops of [find] and [forEach] run over a local array
    that nothing reassigns; [remaining] counts the turns left. *)
Fixpoint find_loop (remaining : nat)
    (callbackfn : JsValue -> JsValue -> JS bool)
    (entries_arr : list (JsValue * JsValue)) (entries_idx : nat) :
    JS JsValue :=
  if (entries_idx <? List.length entries_arr)%nat then
    match remaining with
    | 0 => out_of_fuel
    | S remaining' =>
        match nth_error entries_arr entries_idx with
        | Some (key, value) =>
            found <- callbackfn value key ;;
            if found then ret value
            else find_loop remaining' callbackfn entries_arr
                   (S entries_idx)
        | None => throw (TypeError "undefined is not iterable")
        end
    end
  else ret VUndefined.

Definition find (fuel : nat) (this : t)
    (callbackfn : JsValue -> JsValue -> JS bool) : JS JsValue :=
  arr <- entries_arr fuel this ;;
  find_loop (List.length arr) callbackfn arr 0.

Fixpoint forEach_loop (remaining : nat)
    (callbackfn : JsValue -> JsValue -> JS unit)
    (entries_arr : list (JsValue * JsValue)) (entries_idx : nat) :
    JS unit :=
  if (entries_idx <? List.length entries_arr)%nat then
    match remaining with
    | 0 => out_of_fuel
    | S remaining' =>
        match nth_error entries_arr entries_idx with
        | Some (key, value) =>
            callbackfn value key ;;;
            forEach_loop remaining' callbackfn entries_arr
              (S entries_idx)
        | None => throw (TypeError "undefined is not iterable")
        end
    end
  else ret tt.

Definition forEach (fuel : nat) (this : t)
    (callbackfn : JsValue -> JsValue -> JS unit) : JS unit :=
  arr <- entries_arr fuel this ;;
  forEach_loop (List.length arr) callbackfn arr 0.

End DynamicDB.

(* ================================================================== *)
(** ** Which values the codec gives back unchanged *)

Fixpoint distinct (ks : list string) : bool :=
  match ks with
  | [] => true
  | k :: rest => negb (existsb (String.eqb k) rest) && distinct rest
  end.

Definition safe_integer (n : Z) : bool :=
  ((- 9007199254740991 <=? n) && (n <=? 9007199254740991))%Z.

(** A serializable structured value: built from [null], booleans, safe
    integers, strings, arrays and objects with distinct property names;
    no [undefined] and no BigInt anywhere inside. *)
Fixpoint serializable (v : JsValue) : bool :=
  match v with
  | VUndefined => false
  | VBigInt _ => false
  | VNull => true
  | VBool _ => true
  | VString _ => true
  | VNumber n => safe_integer n
  | VArray xs => forallb serializable xs
  | VObject ps =>
      forallb (fun kv => serializable (snd kv)) ps && distinct (map fst ps)
  end.

(** Fuel the reader needs for the text of a value. *)
Fixpoint weight (v : JsValue) : nat :=
  match v with
  | VArray xs => S (fold_right (fun x acc => S (weight x + acc)) 0 xs)
  | VObject ps => S (fold_right (fun kv acc => S (weight (snd kv) + acc)) 0 ps)
  | _ => 1
  end.

(** Structural induction on values that reaches into arrays and objects. *)
Section JsValue_induction.
Variable P : JsValue -> Prop.
Hypothesis P_undefined : P VUndefined.
Hypothesis P_null : P VNull.
Hypothesis P_bool : forall b, P (VBool b).
Hypothesis P_number : forall n, P (VNumber n).
Hypothesis P_bigint : forall n, P (VBigInt n).
Hypothesis P_string : forall s, P (VString s).
Hypothesis P_array : forall xs, Forall P xs -> P (VArray xs).
Hypothesis P_object :
  forall ps, Forall (fun kv => P (snd kv)) ps -> P (VObject ps).

Fixpoint JsValue_deep_ind (v : JsValue) : P v :=
  match v with
  | VUndefined => P_undefined
  | VNull => P_null
  | VBool b => P_bool b
  | VNumber n => P_number n
  | VBigInt n => P_bigint n
  | VString s => P_string s
  | VArray xs =>
      P_array xs
        ((fix all (l : list JsValue) : Forall P l :=
            match l with
            | [] => Forall_nil P
            | x :: r => Forall_cons x (JsValue_deep_ind x) (all r)
            end) xs)
  | VObject ps =>
      P_object ps
        ((fix all (l : list (string * JsValue)) :
              Forall (fun kv => P (snd kv)) l :=
            match l with
            | [] => Forall_nil _
            | kv :: r =>
                Forall_cons kv (JsValue_deep_ind (snd kv)) (all r)
            end) ps)
  end.
End JsValue_induction.

(* ================================================================== *)
(** ** Auxiliary definitions for the codec lemmas *)

(** The text after a number must not go on with a digit. *)
Definition stops (rest : string) : Prop :=
  match rest with
  | EmptyString => True
  | String c _ => JSON.digit_of c = None
  end.

(** The two local loops of [JSON.serialize], by name. *)
Definition serialize_elements : list JsValue -> Completion (list string) :=
  fix elements (xs : list JsValue) : Completion (list string) :=
    match xs with
    | [] => Normal []
    | x :: rest =>
        cbind (JSON.serialize x) (fun t =>
        cbind (elements rest) (fun ts =>
        Normal (match t with Some t => t | None => "null" end :: ts)))
    end.

Definition serialize_members :
    list (string * JsValue) -> Completion (list string) :=
  fix members (ps : list (string * JsValue)) : Completion (list string) :=
    match ps with
    | [] => Normal []
    | (k, x) :: rest =>
        cbind (JSON.serialize x) (fun t =>
        cbind (members rest) (fun ts =>
        Normal (match t with
                | Some t => (JSON.quote k ++ ":" ++ t) :: ts
                | None => ts
                end)))
    end.

Definition weight_elements (xs : list JsValue) : nat :=
  fold_right (fun x acc => S (weight x + acc)) 0 xs.

Definition weight_members (ps : list (string * JsValue)) : nat :=
  fold_right (fun kv acc => S (weight (snd kv) + acc)) 0 ps.

(** The first character of a written value starts no white space and
    closes no array. *)
Definition opens (t : string) : Prop :=
  exists c t', t = String c t' /\ JSON.is_ws c = false /\
               Ascii.eqb c "]" = false.

(** What it means for the reader to give [v] back from its text [t]. *)
Definition reads_back (v : JsValue) (t : string) : Prop :=
  opens t /\ weight v <= String.length t /\
  forall fuel rest, weight v <= fuel -> stops rest ->
    JSON.parse_value fuel (t ++ rest) = Some (v, rest).

Definition round_trips (v : JsValue) : Prop :=
  serializable v = true ->
  exists t, JSON.serialize v = Normal (Some t) /\ reads_back v t.

(** Two heaps with the same slots and the same host settings. *)
Definition same_store (h h' : Heap) : Prop :=
  bags h' = bags h /\ slot_limit h' = slot_limit h /\
  dev_mode h' = dev_mode h.

(* ================================================================== *)
(** ** Iteration over a snapshot, and sample data *)

(** Calling back on every pair of a list that is already there, in
    order: what [forEach] is to be compared with. *)
Fixpoint visit_each (callbackfn : JsValue -> JsValue -> JS unit)
    (snapshot : list (JsValue * JsValue)) : JS unit :=
  match snapshot with
  | [] => ret tt
  | (key, value) :: rest =>
      callbackfn value key ;;; visit_each callbackfn rest
  end.

(** The value of the first pair of a list the callback accepts: what
    [find] is to be compared with. *)
Fixpoint first_match (callbackfn : JsValue -> JsValue -> JS bool)
    (snapshot : list (JsValue * JsValue)) : JS JsValue :=
  match snapshot with
  | [] => ret VUndefined
  | (key, value) :: rest =>
      found <- callbackfn value key ;;
      if found then ret value else first_match callbackfn rest
  end.

(** A store bound to the world, with a logger. *)
Definition world_db : DynamicDB.t :=
  {| DynamicDB.PROPERTIES := Some (HostObject TheWorld);
     DynamicDB._Logger := Some Logger.Dev |}.

(** A heap in developer mode where only the world has slots. *)
Definition heap_with (bag : PropertyBag) (limit : nat) : Heap :=
  {| bags := fun o => match o with TheWorld => bag | _ => [] end;
     slot_limit := limit;
     dev_mode := true;
     console := [] |}.

Definition existing_ab : JsValue :=
  VObject [("a", VNumber 1); ("b", VObject [("x", VNumber 1)])].

Definition pushed_bc : JsValue :=
  VObject [("b", VObject [("y", VNumber 2)]); ("c", VNumber 3)].

Definition merged_abc : JsValue :=
  VObject [("a", VNumber 1); ("b", VObject [("y", VNumber 2)]);
           ("c", VNumber 3)].

(** The text of [{ a: 1 }], the quotes written by [JSON.quote]. *)
Definition text_a1 : string := "{" ++ JSON.quote "a" ++ ":1}".

(** A bag whose middle slot holds text that is no JSON: some other code
    sharing the owner wrote it. *)
Definition bag_with_corrupt_slot : PropertyBag :=
  [("first", text_a1); ("k", "{"); ("last", text_a1)].

(** A value whose text is longer than ten bytes. *)
Definition long_value : JsValue := VObject [("a", VString "0123456789")].

(** A callback that clears the whole store and then reports the key it
    was called with. *)
Definition reset_and_report (value key : JsValue) : JS Datatypes.unit :=
  DynamicDB.reset world_db ;;;
  Logger.Danger Logger.Dev
    {| diag_unit := "callback"; diag_location := string_of key;
       diag_message := "visited" |}.

(** The sample heaps: an empty bag under a slot limit of 100 and of 10,
    a bag of two good slots, and the bag with the corrupt slot. *)
Definition empty_heap : Heap := heap_with [] 100.

Definition tight_heap : Heap := heap_with [] 10.

Definition two_slot_heap : Heap :=
  heap_with [("first", text_a1); ("last", text_a1)] 100.

Definition corrupt_heap : Heap := heap_with bag_with_corrupt_slot 100.

(** The text of [long_value]: 18 bytes. *)
Definition long_text : string :=
  "{" ++ JSON.quote "a" ++ ":" ++ JSON.quote "0123456789" ++ "}".

(** The heaps some sample calls leave behind. *)
Definition after_set_existing : Heap :=
  snd (DynamicDB.set world_db (VString "k") existing_ab empty_heap).

Definition after_set_long : Heap :=
  snd (DynamicDB.set world_db (VString "k") long_value tight_heap).

Definition after_forEach_reset : Completion Datatypes.unit * Heap :=
  DynamicDB.forEach 3 world_db reset_and_report two_slot_heap.

(** Constructing a store from [null] and calling [set] on it. *)
Definition set_on_store_of_null : Completion bool * Heap :=
  (this <- DynamicDB.constructor (PlainValue VNull) ;;
   DynamicDB.set this (VString "k") (VObject [])) empty_heap.

(* ================================================================== *)
(** ** What the further theorems compare the class with *)

(** Reading the slots of a list of keys one after the other, up to the
    first text that does not parse: what a spread of [entries()] is to be
    compared with. *)
Fixpoint collect_entries (bag : PropertyBag) (ks : list string) :
    Completion (list (JsValue * JsValue)) :=
  match ks with
  | [] => Normal []
  | k :: rest =>
      cbind (JSON.parse (text_of (lookup k bag))) (fun value =>
      cbind (collect_entries bag rest) (fun entries =>
      Normal ((VString k, value) :: entries)))
  end.

(** The value of the first pair a predicate accepts, [undefined] when
    there is none: what [find] with a predicate that has no effects is to
    be compared with. *)
Definition found_value (p : JsValue -> JsValue -> bool)
    (arr : list (JsValue * JsValue)) : JsValue :=
  match List.find (fun kv => p (snd kv) (fst kv)) arr with
  | Some kv => snd kv
  | None => VUndefined
  end.

(** The record [log] hands to the logger from a method of the class. *)
Definition diagnostic_of (location message : string) : Diagnostic :=
  {| diag_unit := "DynamicDB"; diag_location := location;
     diag_message := message |}.

(** What one call of [log] adds to the console. *)
Definition logged (this : DynamicDB.t) (d : Diagnostic) : list Diagnostic :=
  match DynamicDB._Logger this with
  | Some _ => [d]
  | None => []
  end.

(** The sample heap after the merge example's [push]. *)
Definition after_push_bc : Heap :=
  snd (DynamicDB.push world_db (VString "k") pushed_bc after_set_existing).

(** A predicate without effects: is the key the one named last? *)
Definition is_last (value key : JsValue) : bool := includes ["last"] key.

(* ================================================================== *)
(** ** Lemmas: strings *)

Lemma append_assoc (a b c : string) : (a ++ b) ++ c = a ++ (b ++ c).
Proof. induction a as [|x a IH]; simpl; [reflexivity | now rewrite IH]. Qed.

Lemma append_nil_r (a : string) : a ++ "" = a.
Proof. induction a as [|x a IH]; simpl; [reflexivity | now rewrite IH]. Qed.

Lemma length_append (a b : string) :
  String.length (a ++ b) = String.length a + String.length b.
Proof. induction a as [|x a IH]; simpl; [reflexivity | now rewrite IH]. Qed.

(* ================================================================== *)
(** ** Lemmas: numbers *)

Lemma parse_digits_printed (d : uint) (rest : string) :
  stops rest ->
  JSON.parse_digits (NilEmpty.string_of_uint d ++ rest) = (d, rest).
Proof.
  intros Hstop.
  induction d as [|d IH|d IH|d IH|d IH|d IH|d IH|d IH|d IH|d IH|d IH];
    try (cbn [NilEmpty.string_of_uint append JSON.parse_digits];
         cbn [JSON.digit_of]; simpl; rewrite IH; reflexivity).
  simpl. destruct rest as [|c r]; [reflexivity|].
  simpl in Hstop |- *. now rewrite Hstop.
Qed.

Lemma to_uint_shape (n : N) :
  N.to_uint n = D0 Nil \/
  (N.to_uint n <> Nil /\ forall d, N.to_uint n <> D0 d).
Proof.
  assert (Hn : N.to_uint n = unorm (N.to_uint n)).
  { rewrite <- (DecimalN.Unsigned.to_of (N.to_uint n)).
    now rewrite DecimalN.Unsigned.of_to. }
  rewrite Hn. unfold unorm.
  destruct (nzhead (N.to_uint n)) eqn:E; auto;
    try (right; split; [discriminate | intros d'; discriminate]).
  exfalso. exact (nzhead_nonzero _ _ E).
Qed.

Lemma parse_natural_printed (n : N) (rest : string) :
  stops rest ->
  JSON.parse_natural (decimal n ++ rest) = Some (n, rest).
Proof.
  intros Hstop. unfold JSON.parse_natural, decimal.
  pose proof (DecimalN.Unsigned.of_to n) as Hof.
  destruct (to_uint_shape n) as [H0 | [Hnil Hlead]].
  - rewrite H0 in *. simpl.
    destruct rest as [|c r]; simpl in *.
    + now rewrite <- Hof.
    + rewrite Hstop. now rewrite <- Hof.
  - assert (Hs : NilZero.string_of_uint (N.to_uint n)
                 = NilEmpty.string_of_uint (N.to_uint n)).
    { unfold NilZero.string_of_uint. destruct (N.to_uint n); congruence. }
    rewrite Hs, parse_digits_printed by assumption.
    destruct (N.to_uint n) eqn:E; try congruence;
      now rewrite <- Hof.
Qed.

Lemma number_head (c : ascii) :
  JSON.digit_of c <> None \/ c = "-"%char ->
  JSON.is_ws c = false /\ Ascii.eqb c "{" = false /\ Ascii.eqb c "[" = false /\
  Ascii.eqb c dquote = false /\
  (Ascii.eqb c "t" || Ascii.eqb c "f" || Ascii.eqb c "n") = false /\
  Ascii.eqb c "]" = false.
Proof.
  destruct c as [[] [] [] [] [] [] [] []];
    intros [H | H]; vm_compute in H; try congruence;
    repeat split; reflexivity.
Qed.

Lemma parse_chars_quote_char (c : ascii) (tail : string) :
  JSON.parse_chars (JSON.quote_char c ++ tail)
  = JSON.prepend c (JSON.parse_chars tail).
Proof.
  destruct c as [[] [] [] [] [] [] [] []]; reflexivity.
Qed.

Lemma parse_chars_quoted (s rest : string) :
  JSON.parse_chars (JSON.quote_chars s ++ String dquote rest) = Some (s, rest).
Proof.
  induction s as [|c s IH]; [reflexivity|].
  cbn [JSON.quote_chars]. rewrite append_assoc, parse_chars_quote_char, IH.
  reflexivity.
Qed.

Lemma parse_digits_head (c : ascii) (r : string) :
  fst (JSON.parse_digits (String c r)) <> Nil -> JSON.digit_of c <> None.
Proof.
  cbn [JSON.parse_digits]. destruct (JSON.digit_of c); [discriminate|].
  intros H; now elim H.
Qed.

Lemma parse_natural_head (c : ascii) (r : string) (x : N * string) :
  JSON.parse_natural (String c r) = Some x -> JSON.digit_of c <> None.
Proof.
  unfold JSON.parse_natural. intros H. apply (parse_digits_head c r).
  destruct (JSON.parse_digits (String c r)) as [u rest].
  destruct u; simpl; discriminate.
Qed.

Lemma parse_value_number (f : nat) (s : string) (v : JsValue) (rest : string) :
  JSON.parse_number s = Some (v, rest) ->
  JSON.parse_value (S f) s = Some (v, rest) /\
  exists c r, s = String c r /\ JSON.is_ws c = false /\ Ascii.eqb c "]" = false.
Proof.
  destruct s as [|c r]; [discriminate|]. intros H.
  assert (Hhead : JSON.digit_of c <> None \/ c = "-"%char).
  { unfold JSON.parse_number in H.
    destruct (Ascii.eqb_spec c "-"); [now right | left].
    destruct (JSON.parse_natural (String c r)) as [x|] eqn:E; [|discriminate].
    exact (parse_natural_head _ _ _ E). }
  destruct (number_head c Hhead) as (Hws & Ho & Ha & Hq & Hl & Hc).
  split; [| now exists c, r].
  cbn [JSON.parse_value JSON.skip_ws]. rewrite Hws, Ho, Ha, Hq, Hl. exact H.
Qed.

Lemma parse_number_printed (n : Z) (rest : string) :
  stops rest ->
  JSON.parse_number (JSON.number_text n ++ rest) = Some (VNumber n, rest).
Proof.
  intros Hstop. unfold JSON.number_text.
  destruct (Z.ltb_spec n 0) as [Hneg | Hpos].
  - cbn [append JSON.parse_number]. change (Ascii.eqb "-" "-") with true.
    cbn iota. rewrite parse_natural_printed by assumption.
    rewrite Z2N.id by lia. now rewrite Z.opp_involutive.
  - pose proof (parse_natural_printed (Z.to_N n) rest Hstop) as H.
    destruct (decimal (Z.to_N n) ++ rest) as [|c r] eqn:E; [discriminate|].
    unfold JSON.parse_number.
    destruct (Ascii.eqb_spec c "-") as [-> | _].
    + discriminate H.
    + rewrite H, Z2N.id by lia. reflexivity.
Qed.

(* ================================================================== *)
(** ** Lemmas: the codec reads back what it wrote *)

Lemma serialize_array (xs : list JsValue) :
  JSON.serialize (VArray xs)
  = cbind (serialize_elements xs)
      (fun ts => Normal (Some ("[" ++ String.concat "," ts ++ "]"))).
Proof. reflexivity. Qed.

Lemma serialize_object (ps : list (string * JsValue)) :
  JSON.serialize (VObject ps)
  = cbind (serialize_members ps)
      (fun ts => Normal (Some ("{" ++ String.concat "," ts ++ "}"))).
Proof. reflexivity. Qed.

Lemma skip_ws_opens (t rest : string) :
  opens t -> JSON.skip_ws (t ++ rest) = t ++ rest.
Proof.
  intros (c & t' & -> & Hws & _). cbn [append JSON.skip_ws]. now rewrite Hws.
Qed.

Lemma define_property_fresh {A} (k : string) (v : A) (ps : list (string * A)) :
  existsb (String.eqb k) (map fst ps) = false ->
  define_property k v ps = (ps ++ [(k, v)])%list.
Proof.
  induction ps as [|[k' v'] ps IH]; [reflexivity|].
  cbn [map fst existsb define_property app]. intros H.
  apply orb_false_iff in H as [Hk Hrest].
  rewrite Hk, IH by assumption. reflexivity.
Qed.

Lemma existsb_app_keys (k : string) (a b : list string) :
  existsb (String.eqb k) (a ++ b)%list
  = existsb (String.eqb k) a || existsb (String.eqb k) b.
Proof. apply existsb_app. Qed.

Lemma define_all_distinct {A} (src target : list (string * A)) :
  distinct (map fst src) = true ->
  (forall k, existsb (String.eqb k) (map fst src) = true ->
             existsb (String.eqb k) (map fst target) = false) ->
  define_all src target = (target ++ src)%list.
Proof.
  revert target. induction src as [|[k v] src IH]; intros target Hd Hdisj.
  - unfold define_all. simpl. now rewrite List.app_nil_r.
  - cbn [map fst distinct] in Hd. apply andb_true_iff in Hd as [Hk Hd].
    apply negb_true_iff in Hk.
    unfold define_all in *. cbn [fold_left fst snd].
    rewrite define_property_fresh.
    + rewrite IH; [now rewrite <- List.app_assoc | assumption |].
      intros k' Hk'. rewrite map_app, existsb_app_keys.
      rewrite (Hdisj k') by (cbn [map fst existsb]; rewrite Hk'; apply orb_true_r).
      cbn [map fst existsb]. rewrite orb_false_r. simpl.
      destruct (String.eqb_spec k' k) as [-> | _]; [congruence | reflexivity].
    + apply Hdisj. cbn [map fst existsb]. now rewrite String.eqb_refl.
Qed.

Lemma define_all_fresh {A} (ps : list (string * A)) :
  distinct (map fst ps) = true -> define_all ps [] = ps.
Proof.
  intros H. rewrite define_all_distinct; [reflexivity | assumption | reflexivity].
Qed.

Lemma round_trip_elements (xs : list JsValue) :
  Forall round_trips xs ->
  forallb serializable xs = true ->
  exists ts,
    serialize_elements xs = Normal ts /\
    List.length ts = List.length xs /\
    weight_elements xs <= String.length (String.concat "," ts) + 1 /\
    (xs <> [] ->
     opens (String.concat "," ts) /\
     forall fuel rest, weight_elements xs <= fuel ->
       JSON.parse_elements fuel (String.concat "," ts ++ String "]" rest)
       = Some (xs, rest)).
Proof.
  induction 1 as [|x xs Hx _ IH]; intros Hser.
  - exists []. split; [reflexivity|]. split; [reflexivity|].
    split; [simpl; lia|]. intros Hne; now elim Hne.
  - cbn [forallb] in Hser. apply andb_true_iff in Hser as [Hsx Hsxs].
    destruct (Hx Hsx) as (t & Ht & Hopen & Hlen & Hparse).
    destruct (IH Hsxs) as (ts & Hts & Hcount & Hw & Hrest).
    exists (t :: ts). cbn [serialize_elements]. fold serialize_elements.
    rewrite Ht, Hts. cbn [cbind].
    split; [reflexivity|]. split; [simpl; now rewrite Hcount|].
    destruct xs as [|y ys].
    + destruct ts; [|discriminate]. cbn [String.concat weight_elements fold_right].
      split; [lia|]. intros _. split; [assumption|].
      intros fuel rest Hfuel. destruct fuel as [|f]; [simpl in Hfuel; lia|].
      cbn [JSON.parse_elements].
      rewrite Hparse by (simpl in *; try lia; reflexivity).
      reflexivity.
    + destruct ts as [|t1 ts1]; [discriminate|].
      destruct Hrest as [Hopen' Hparse']; [discriminate|].
      change (String.concat "," (t :: t1 :: ts1))
        with (t ++ "," ++ String.concat "," (t1 :: ts1)).
      set (body := String.concat "," (t1 :: ts1)) in *.
      split.
      { rewrite !length_append. simpl String.length.
        change (weight_elements (x :: y :: ys))
          with (S (weight x + weight_elements (y :: ys))). lia. }
      intros _. split.
      { destruct Hopen as (c & t' & -> & Hc). exists c. eexists.
        split; [reflexivity | exact Hc]. }
      intros fuel rest Hfuel. destruct fuel as [|f].
      { change (weight_elements (x :: y :: ys))
          with (S (weight x + weight_elements (y :: ys))) in Hfuel. lia. }
      change (weight_elements (x :: y :: ys))
        with (S (weight x + weight_elements (y :: ys))) in Hfuel.
      rewrite !append_assoc. cbn [JSON.parse_elements].
      rewrite Hparse by (try lia; reflexivity).
      cbn [append JSON.skip_ws]. change (JSON.is_ws ",") with false.
      cbv iota. change (Ascii.eqb "," ",") with true. cbv iota.
      rewrite Hparse' by lia. reflexivity.
Qed.

Lemma round_trip_members (ps : list (string * JsValue)) :
  Forall (fun kv => round_trips (snd kv)) ps ->
  forallb (fun kv => serializable (snd kv)) ps = true ->
  exists ts,
    serialize_members ps = Normal ts /\
    List.length ts = List.length ps /\
    weight_members ps <= String.length (String.concat "," ts) + 1 /\
    (ps <> [] ->
     (exists t', String.concat "," ts = String dquote t') /\
     forall fuel rest, weight_members ps <= fuel ->
       JSON.parse_members fuel (String.concat "," ts ++ String "}" rest)
       = Some (ps, rest)).
Proof.
  induction 1 as [|[k x] ps Hx _ IH]; intros Hser.
  - exists []. split; [reflexivity|]. split; [reflexivity|].
    split; [simpl; lia|]. intros Hne; now elim Hne.
  - cbn [forallb snd] in Hser, Hx. apply andb_true_iff in Hser as [Hsx Hsps].
    destruct (Hx Hsx) as (t & Ht & Hopen & Hlen & Hparse).
    destruct (IH Hsps) as (ts & Hts & Hcount & Hw & Hrest).
    exists ((JSON.quote k ++ ":" ++ t) :: ts).
    cbn [serialize_members]. fold serialize_members.
    rewrite Ht, Hts. cbn [cbind].
    split; [reflexivity|]. split; [simpl; now rewrite Hcount|].
    assert (Hmember : forall f tail,
      weight x <= f -> stops tail ->
      JSON.parse_members (S f) ((JSON.quote k ++ ":" ++ t) ++ tail)
      = match JSON.skip_ws tail with
        | EmptyString => None
        | String c' r4 =>
            if Ascii.eqb c' ","
            then match JSON.parse_members f r4 with
                 | Some (ms, rest) => Some ((k, x) :: ms, rest)
                 | None => None
                 end
            else if Ascii.eqb c' "}" then Some ([(k, x)], r4) else None
        end).
    { intros f tail Hf Hstop. unfold JSON.quote.
      cbn [append JSON.parse_members JSON.skip_ws].
      change (JSON.is_ws dquote) with false. cbv iota.
      change (Ascii.eqb dquote dquote) with true. cbn [negb]. cbv iota.
      rewrite !append_assoc. cbn [append].
      rewrite parse_chars_quoted. cbn [JSON.skip_ws].
      change (JSON.is_ws ":") with false. cbv iota.
      change (Ascii.eqb ":" ":") with true. cbn [negb]. cbv iota.
      rewrite Hparse by assumption. reflexivity. }
    assert (Hmlen : String.length (JSON.quote k ++ ":" ++ t)
                    = String.length (JSON.quote k) + 1 + String.length t).
    { rewrite !length_append. simpl. lia. }
    change (weight_members ((k, x) :: ps))
      with (S (weight x + weight_members ps)).
    destruct ps as [|p ps'].
    + destruct ts; [|discriminate]. cbn [String.concat].
      split; [rewrite Hmlen; simpl weight_members; lia|].
      intros _. split; [unfold JSON.quote; eexists; reflexivity|].
      intros fuel rest Hfuel. destruct fuel as [|f]; [simpl in Hfuel; lia|].
      rewrite Hmember by (simpl in *; try lia; reflexivity).
      reflexivity.
    + destruct ts as [|t1 ts1]; [discriminate|].
      destruct Hrest as [Hopen' Hparse']; [discriminate|].
      change (String.concat "," ((JSON.quote k ++ ":" ++ t) :: t1 :: ts1))
        with ((JSON.quote k ++ ":" ++ t) ++ "," ++ String.concat "," (t1 :: ts1)).
      set (body := String.concat "," (t1 :: ts1)) in *.
      set (w := weight_members (p :: ps')) in *.
      split.
      { rewrite length_append, Hmlen, length_append. cbn [String.length]. lia. }
      intros _. split; [unfold JSON.quote; eexists; reflexivity|].
      intros fuel rest Hfuel. destruct fuel as [|f]; [lia|].
      rewrite append_assoc.
      rewrite Hmember by (try lia; reflexivity).
      cbn [append JSON.skip_ws]. change (JSON.is_ws ",") with false.
      cbv iota. change (Ascii.eqb "," ",") with true. cbv iota.
      rewrite Hparse' by lia. reflexivity.
Qed.

Lemma opens_length (t : string) : opens t -> 1 <= String.length t.
Proof. intros (c & t' & -> & _). simpl. lia. Qed.

(** Every serializable value is written to a text that reads back as the
    value itself. *)
Lemma round_trip (v : JsValue) : round_trips v.
Proof.
  induction v as [| |b|n|n|s|xs IH|ps IH] using JsValue_deep_ind;
    intros Hser; try discriminate Hser.
  - exists "null". split; [reflexivity|]. split; [|split; [simpl; lia|]].
    + exists "n"%char, "ull". repeat split.
    + intros [|f] rest Hf _; [simpl in Hf; lia | reflexivity].
  - exists (if b then "true" else "false"). split; [reflexivity|].
    split; [|split; [destruct b; simpl; lia|]].
    + destruct b; eexists; eexists; repeat split.
    + intros [|f] rest Hf _; [simpl in Hf; lia | destruct b; reflexivity].
  - exists (JSON.number_text n). split; [reflexivity|].
    assert (Hopen : opens (JSON.number_text n)).
    { pose proof (parse_number_printed n "" I) as H.
      destruct (parse_value_number 0 _ _ _ H) as [_ (c & r & E & Hc)].
      rewrite append_nil_r in E. now exists c, r. }
    split; [assumption|]. split; [exact (opens_length _ Hopen)|].
    intros [|f] rest Hf Hstop; [simpl in Hf; lia|].
    apply parse_value_number. now apply parse_number_printed.
  - exists (JSON.quote s). split; [reflexivity|]. split; [|split].
    + unfold JSON.quote. eexists; eexists. repeat split.
    + unfold JSON.quote. simpl. lia.
    + intros [|f] rest Hf _; [simpl in Hf; lia|].
      unfold JSON.quote. cbn [append JSON.parse_value JSON.skip_ws].
      change (JSON.is_ws dquote) with false. cbv iota.
      change (Ascii.eqb dquote "{") with false.
      change (Ascii.eqb dquote "[") with false.
      change (Ascii.eqb dquote dquote) with true. cbv iota.
      rewrite append_assoc. cbn [append]. now rewrite parse_chars_quoted.
  - cbn [serializable] in Hser.
    destruct (round_trip_elements xs IH Hser)
      as (ts & Hts & Hcount & Hw & Hrest).
    rewrite serialize_array, Hts. cbn [cbind]. eexists. split; [reflexivity|].
    assert (Hwt : weight (VArray xs) = S (weight_elements xs)) by reflexivity.
    split; [|split].
    + exists "["%char. eexists. repeat split.
    + rewrite !length_append. cbn [String.length]. lia.
    + intros [|f] rest Hf _; [lia|].
      rewrite !append_assoc.
      cbn [append JSON.parse_value JSON.skip_ws].
      change (JSON.is_ws "[") with false. cbv iota.
      change (Ascii.eqb "[" "{") with false.
      change (Ascii.eqb "[" "[") with true. cbv iota.
      destruct xs as [|x xs'].
      * destruct ts; [|discriminate]. reflexivity.
      * destruct Hrest as [Hopen Hparse]; [discriminate|].
        rewrite (skip_ws_opens _ _ Hopen).
        destruct Hopen as (c & t' & E & _ & Hc). rewrite E at 1.
        cbn [append]. rewrite Hc. rewrite Hparse by lia. reflexivity.
  - cbn [serializable] in Hser. apply andb_true_iff in Hser as [Hser Hdist].
    destruct (round_trip_members ps IH Hser)
      as (ts & Hts & Hcount & Hw & Hrest).
    rewrite serialize_object, Hts. cbn [cbind]. eexists. split; [reflexivity|].
    assert (Hwt : weight (VObject ps) = S (weight_members ps)) by reflexivity.
    split; [|split].
    + exists "{"%char. eexists. repeat split.
    + rewrite !length_append. cbn [String.length]. lia.
    + intros [|f] rest Hf _; [lia|].
      rewrite !append_assoc.
      cbn [append JSON.parse_value JSON.skip_ws].
      change (JSON.is_ws "{") with false. cbv iota.
      change (Ascii.eqb "{" "{") with true. cbv iota.
      destruct ps as [|p ps'].
      * destruct ts; [|discriminate]. reflexivity.
      * destruct Hrest as [[t' E] Hparse]; [discriminate|].
        rewrite E at 1. cbn [append JSON.skip_ws].
        change (JSON.is_ws dquote) with false. cbv iota.
        change (Ascii.eqb dquote "}") with false. cbv iota.
        rewrite Hparse by lia. now rewrite define_all_fresh.
Qed.

(** [JSON.parse(JSON.stringify(v))] is [v] for a serializable [v]. *)
Lemma parse_stringify (v : JsValue) :
  serializable v = true ->
  exists t, JSON.stringify v = Normal (Some t) /\ JSON.parse t = Normal v.
Proof.
  intros Hser. destruct (round_trip v Hser) as (t & Ht & _ & Hlen & Hparse).
  exists t. split; [exact Ht|]. unfold JSON.parse.
  rewrite <- (append_nil_r t) at 2.
  rewrite Hparse by (simpl; try lia; exact I). reflexivity.
Qed.

(* ================================================================== *)
(** ** Lemmas: the host property bag *)

Lemma Owner_eqb_refl (o : Owner) : Owner_eqb o o = true.
Proof. destruct o; simpl; auto using Nat.eqb_refl. Qed.

Lemma bags_with_bag (h : Heap) (o : Owner) (b : PropertyBag) :
  bags (Host.with_bag h o b) o = b.
Proof. simpl. now rewrite Owner_eqb_refl. Qed.

Lemma lookup_define_property {A} (k : string) (v : A) (ps : list (string * A)) :
  lookup k (define_property k v ps) = Some v.
Proof.
  induction ps as [|[k' v'] ps IH]; simpl.
  - now rewrite String.eqb_refl.
  - destruct (String.eqb k k') eqn:E; simpl; rewrite E; auto.
Qed.

Lemma lookup_define_property_other {A} (k p : string) (v : A)
    (ps : list (string * A)) :
  p <> k -> lookup p (define_property k v ps) = lookup p ps.
Proof.
  intros Hne. induction ps as [|[k' v'] ps IH]; simpl.
  - destruct (String.eqb_spec p k); [contradiction | reflexivity].
  - destruct (String.eqb_spec k k') as [<- | Hk]; simpl.
    + destruct (String.eqb_spec p k); [contradiction | reflexivity].
    + now rewrite IH.
Qed.

Lemma lookup_present {A} (k : string) (ps : list (string * A)) :
  existsb (String.eqb k) (map fst ps)
  = match lookup k ps with Some _ => true | None => false end.
Proof.
  induction ps as [|[k' v'] ps IH]; simpl; [reflexivity|].
  destruct (String.eqb k k'); simpl; auto.
Qed.

Lemma existsb_remove (k : string) (b : PropertyBag) :
  existsb (String.eqb k) (map fst (Host.remove k b)) = false.
Proof.
  induction b as [|[k' v'] b IH]; simpl; [reflexivity|].
  destruct (String.eqb k k') eqn:E; simpl; [assumption|].
  now rewrite E, IH.
Qed.

(* ================================================================== *)
(** ** Lemmas: the logger only writes to the console *)

Lemma same_store_refl (h : Heap) : same_store h h.
Proof. repeat split. Qed.

Lemma same_store_trans (a b c : Heap) :
  same_store a b -> same_store b c -> same_store a c.
Proof.
  intros (H1 & H2 & H3) (H4 & H5 & H6).
  repeat split; congruence.
Qed.

Lemma log_normal (this : DynamicDB.t) (u l m : string) (h : Heap) :
  exists h', DynamicDB.log this u l m h = (Normal tt, h') /\ same_store h h'.
Proof.
  unfold DynamicDB.log. destruct (DynamicDB._Logger this).
  - eexists. split; [reflexivity|]. repeat split.
  - exists h. split; [reflexivity | apply same_store_refl].
Qed.

(** A method that fails validation: one call of [log], then the sentinel. *)
Lemma log_then_ret {A} (this : DynamicDB.t) (u l m : string) (a : A)
    (h : Heap) :
  exists h', (DynamicDB.log this u l m ;;; ret a) h = (Normal a, h') /\
             same_store h h'.
Proof.
  destruct (log_normal this u l m h) as (h' & E & Hs).
  exists h'. unfold bind. now rewrite E.
Qed.

(** The same, with what the call adds to the console. *)
Lemma log_effect (this : DynamicDB.t) (l m : string) (h : Heap) :
  exists h',
    DynamicDB.log this "DynamicDB" l m h = (Normal tt, h') /\
    same_store h h' /\
    console h' = (console h ++ logged this (diagnostic_of l m))%list.
Proof.
  unfold DynamicDB.log, logged. destruct (DynamicDB._Logger this).
  - eexists. split; [reflexivity|]. split; [repeat split | reflexivity].
  - exists h. split; [reflexivity|]. split; [apply same_store_refl|].
    now rewrite List.app_nil_r.
Qed.

Lemma log_ret_effect {A} (this : DynamicDB.t) (l m : string) (a : A)
    (h : Heap) :
  exists h',
    (DynamicDB.log this "DynamicDB" l m ;;; ret a) h = (Normal a, h') /\
    same_store h h' /\
    console h' = (console h ++ logged this (diagnostic_of l m))%list.
Proof.
  destruct (log_effect this l m h) as (h' & E & Hs & Hc).
  exists h'. unfold bind. rewrite E. auto.
Qed.

(* ================================================================== *)
(** ** Lemmas: the methods on a bound store *)

Section Bound.
Variable this : DynamicDB.t.
Variable o : Owner.
Hypothesis bound : DynamicDB.PROPERTIES this = Some (HostObject o).

Lemma keys_bound (h : Heap) :
  DynamicDB.keys this h = (Normal (map fst (bags h o)), h).
Proof. unfold DynamicDB.keys. now rewrite bound. Qed.

Lemma hasKey_bound (key : JsValue) (h : Heap) :
  DynamicDB.hasKey this key h
  = (Normal (includes (map fst (bags h o)) key), h).
Proof. unfold DynamicDB.hasKey, bind. now rewrite keys_bound. Qed.

Lemma get_present (k text : string) (h : Heap) :
  lookup k (bags h o) = Some text ->
  DynamicDB.get this (VString k) h = (lift (JSON.parse text)) h.
Proof.
  intros Hl. unfold DynamicDB.get. cbn [Validator.isString negb].
  unfold bind at 1. rewrite hasKey_bound. cbn [includes].
  rewrite lookup_present, Hl. cbn [negb].
  unfold bind, Host.call. rewrite bound.
  unfold Host.getDynamicProperty, bind. cbn [Host.identifier_of ret].
  now rewrite Hl.
Qed.

Lemma get_absent (k : string) (h : Heap) :
  lookup k (bags h o) = None ->
  exists h', DynamicDB.get this (VString k) h = (Normal VUndefined, h') /\
             same_store h h'.
Proof.
  intros Hl. unfold DynamicDB.get. cbn [Validator.isString negb].
  unfold bind at 1. rewrite hasKey_bound. cbn [includes].
  rewrite lookup_present, Hl. cbn [negb].
  apply log_then_ret.
Qed.

(** What [set] does once both arguments are valid. *)
Lemma set_valid (k : string) (ps : list (string * JsValue)) (h : Heap) :
  DynamicDB.set this (VString k) (VObject ps) h
  = try_catch
      (json_data <- lift (JSON.stringify (VObject ps)) ;;
       Host.setDynamicProperty o (VString k) json_data ;;;
       ret true)
      (fun _ =>
         DynamicDB.log this "DynamicDB" "set" "Failed to serialize data." ;;;
         ret false) h.
Proof. unfold DynamicDB.set, Host.call. now rewrite bound. Qed.

Lemma set_written (k : string) (v : JsValue) (t : string) (h : Heap) :
  Validator.isObject v = true ->
  JSON.stringify v = Normal (Some t) ->
  (String.length t <= slot_limit h)%nat ->
  DynamicDB.set this (VString k) v h
  = (Normal true, Host.with_bag h o (define_property k t (bags h o))).
Proof.
  intros Hobj Hstr Hfit. destruct v; try discriminate Hobj.
  rewrite set_valid. unfold try_catch, bind, lift. rewrite Hstr.
  unfold Host.setDynamicProperty, bind. cbn [Host.identifier_of ret].
  destruct (Nat.ltb_spec (slot_limit h) (String.length t)); [lia|].
  reflexivity.
Qed.

Lemma set_refused (k : string) (v : JsValue) (t : string) (h : Heap) :
  Validator.isObject v = true ->
  JSON.stringify v = Normal (Some t) ->
  (slot_limit h < String.length t)%nat ->
  exists h', DynamicDB.set this (VString k) v h = (Normal false, h') /\
             same_store h h'.
Proof.
  intros Hobj Hstr Hbig. destruct v; try discriminate Hobj.
  rewrite set_valid. unfold try_catch, bind at 1 2, lift. rewrite Hstr.
  unfold Host.setDynamicProperty, bind at 1. cbn [Host.identifier_of ret].
  destruct (Nat.ltb_spec (slot_limit h) (String.length t)); [|lia].
  apply log_then_ret.
Qed.

End Bound.

(** [set] of a text the host refuses for its length: the throw of the
    host is caught, [log] is called once and the sentinel returned. *)
Lemma set_refused_logged (this : DynamicDB.t) (o : Owner) (k : string)
    (v : JsValue) (t : string) (h : Heap) :
  DynamicDB.PROPERTIES this = Some (HostObject o) ->
  Validator.isObject v = true ->
  JSON.stringify v = Normal (Some t) ->
  (slot_limit h < String.length t)%nat ->
  (exists e, Host.setDynamicProperty o (VString k) (Some t) h = (Throw e, h)) /\
  exists h',
    DynamicDB.set this (VString k) v h = (Normal false, h') /\
    same_store h h' /\
    console h'
    = (console h ++
       logged this (diagnostic_of "set" "Failed to serialize data."))%list.
Proof.
  intros Hb Hobj Hstr Hbig. split.
  - eexists. unfold Host.setDynamicProperty, bind.
    cbn [Host.identifier_of ret].
    destruct (Nat.ltb_spec (slot_limit h) (String.length t)); [|lia].
    reflexivity.
  - destruct v; try discriminate Hobj.
    rewrite (set_valid this o Hb). unfold try_catch, bind at 1 2, lift.
    rewrite Hstr.
    unfold Host.setDynamicProperty, bind at 1. cbn [Host.identifier_of ret].
    destruct (Nat.ltb_spec (slot_limit h) (String.length t)); [|lia].
    apply log_ret_effect.
Qed.

Lemma set_invalid (this : DynamicDB.t) (key data : JsValue) (h : Heap) :
  Validator.isString key = false \/ Validator.isObject data = false ->
  exists h', DynamicDB.set this key data h = (Normal false, h') /\
             same_store h h'.
Proof.
  intros Hbad. unfold DynamicDB.set.
  destruct (Validator.isString key); cbn [negb].
  - destruct Hbad as [Hk | Hd]; [discriminate|]. rewrite Hd. cbn [negb].
    apply log_then_ret.
  - apply log_then_ret.
Qed.

Lemma get_same_store (this : DynamicDB.t) (o : Owner) (key : JsValue)
    (h h' : Heap) :
  DynamicDB.PROPERTIES this = Some (HostObject o) ->
  same_store h h' ->
  fst (DynamicDB.get this key h') = fst (DynamicDB.get this key h).
Proof.
  intros Hb (Hbags & _). destruct key;
    try (unfold DynamicDB.get; cbn [Validator.isString negb];
         destruct (log_then_ret this "DynamicDB" "get" "Key must be a string."
                     VUndefined h) as (h1 & -> & _);
         destruct (log_then_ret this "DynamicDB" "get" "Key must be a string."
                     VUndefined h') as (h2 & -> & _);
         reflexivity).
  destruct (lookup s (bags h o)) as [text|] eqn:E.
  - rewrite (get_present this o Hb s text h) by assumption.
    rewrite (get_present this o Hb s text h') by (now rewrite Hbags).
    reflexivity.
  - destruct (get_absent this o Hb s h E) as (h1 & -> & _).
    assert (E' : lookup s (bags h' o) = None) by (now rewrite Hbags).
    destruct (get_absent this o Hb s h' E') as (h2 & -> & _).
    reflexivity.
Qed.

Lemma serialize_elements_completes (xs : list JsValue) :
  Forall (fun x => JSON.serialize x <> OutOfFuel) xs ->
  serialize_elements xs <> OutOfFuel.
Proof.
  induction 1 as [|x xs Hx _ IH]; [discriminate|].
  cbn [serialize_elements]. fold serialize_elements.
  destruct (JSON.serialize x); [|discriminate|contradiction].
  cbn [cbind]. destruct (serialize_elements xs);
    [discriminate|discriminate|contradiction].
Qed.

Lemma serialize_members_completes (ps : list (string * JsValue)) :
  Forall (fun kv => JSON.serialize (snd kv) <> OutOfFuel) ps ->
  serialize_members ps <> OutOfFuel.
Proof.
  induction 1 as [|[k x] ps Hx _ IH]; [discriminate|].
  cbn [serialize_members]. fold serialize_members. cbn [snd] in Hx.
  destruct (JSON.serialize x); [|discriminate|contradiction].
  cbn [cbind]. destruct (serialize_members ps);
    [discriminate|discriminate|contradiction].
Qed.

(** [JSON.stringify] has no loop of its own to run out of fuel. *)
Lemma serialize_completes (v : JsValue) : JSON.serialize v <> OutOfFuel.
Proof.
  induction v as [| |b|n|n|s|xs IH|ps IH] using JsValue_deep_ind;
    try discriminate.
  - rewrite serialize_array.
    pose proof (serialize_elements_completes xs IH).
    destruct (serialize_elements xs); [discriminate|discriminate|contradiction].
  - rewrite serialize_object.
    pose proof (serialize_members_completes ps IH).
    destruct (serialize_members ps); [discriminate|discriminate|contradiction].
Qed.

(** Without a host object behind [PROPERTIES], [set] still returns: its
    use of the backend is inside the [try], so the [TypeError] is caught
    and becomes the sentinel. *)
Lemma set_not_bound (this : DynamicDB.t) (key data : JsValue) (h : Heap) :
  (forall o, DynamicDB.PROPERTIES this <> Some (HostObject o)) ->
  exists h', DynamicDB.set this key data h = (Normal false, h') /\
             same_store h h'.
Proof.
  intros Hno.
  destruct (Validator.isString key) eqn:Hk;
    [|apply set_invalid; now left].
  destruct (Validator.isObject data) eqn:Hd;
    [|apply set_invalid; now right].
  unfold DynamicDB.set. rewrite Hk, Hd. cbn [negb].
  unfold try_catch, bind at 1 2, lift, Host.call.
  pose proof (serialize_completes data) as Hnf. unfold JSON.stringify.
  destruct (JSON.serialize data) as [json|e|]; [| |contradiction].
  - destruct (DynamicDB.PROPERTIES this) as [[o | pv] |];
      [now elim (Hno o) | |]; unfold throw; apply log_then_ret.
  - apply log_then_ret.
Qed.

(* ================================================================== *)
(** ** Theorems: round trip, validation, oversized values *)

(** C3. Round trip: when [set(k, v)] returns true for a string key [k]
    and a serializable structured value [v], the [get(k)] that follows
    returns [v] itself (equality of model values is deep equality) and
    touches nothing. *)
Theorem set_get_round_trip (this : DynamicDB.t) (k : string) (v : JsValue)
    (h h' : Heap) :
  serializable v = true ->
  DynamicDB.set this (VString k) v h = (Normal true, h') ->
  DynamicDB.get this (VString k) h' = (Normal v, h').
Proof.
  intros Hser Hset.
  destruct (DynamicDB.PROPERTIES this) as [[o | pv] |] eqn:Hb;
    try (destruct (set_not_bound this (VString k) v h) as (h1 & E & _);
         [intros o'; rewrite Hb; discriminate
         | rewrite E in Hset; discriminate Hset]).
  destruct (parse_stringify v Hser) as (t & Hstr & Hparse).
  destruct (Validator.isObject v) eqn:Hobj.
  - destruct (Nat.ltb_spec (slot_limit h) (String.length t)) as [Hbig | Hfit].
    + destruct (set_refused this o Hb k v t h Hobj Hstr Hbig) as (h1 & E & _).
      rewrite E in Hset. discriminate Hset.
    + rewrite (set_written this o Hb k v t h Hobj Hstr Hfit) in Hset.
      injection Hset as <-.
      rewrite (get_present this o Hb k t).
      * unfold lift. now rewrite Hparse.
      * rewrite bags_with_bag. apply lookup_define_property.
  - destruct (set_invalid this (VString k) v h (or_intror Hobj)) as (h1 & E & _).
    rewrite E in Hset. discriminate Hset.
Qed.

(** C6. Validation rejection: whenever the key is not a string or the
    value is not a structured object, [set] returns false and the slots of
    every owner are what they were. *)
Theorem set_rejects_invalid (this : DynamicDB.t) (key data : JsValue)
    (h : Heap) :
  Validator.isString key = false \/ Validator.isObject data = false ->
  exists h', DynamicDB.set this key data h = (Normal false, h') /\
             bags h' = bags h.
Proof.
  intros Hbad. destruct (set_invalid this key data h Hbad) as (h' & E & Hs & _).
  now exists h'.
Qed.

(** C2, as amended. No chunking: for a string key and a structured value
    whose serialized text is longer than the slot limit, [set] tries one
    write of the whole text to the slot of the key, the host refuses it,
    and [set] calls [log] once (a record located at set, message Failed
    to serialize data, reaches the console when the store has a logger)
    and returns false with every slot unchanged; [get] and [keys] answer
    as before the call, and [keys] is the host's list of slot ids as it
    is. *)
Theorem set_oversize_refused (this : DynamicDB.t) (o : Owner) (k : string)
    (v : JsValue) (t : string) (h : Heap) :
  DynamicDB.PROPERTIES this = Some (HostObject o) ->
  Validator.isObject v = true ->
  JSON.stringify v = Normal (Some t) ->
  (slot_limit h < String.length t)%nat ->
  exists h',
    DynamicDB.set this (VString k) v h = (Normal false, h') /\
    (exists e,
       Host.setDynamicProperty o (VString k) (Some t) h = (Throw e, h)) /\
    console h'
    = (console h ++
       logged this (diagnostic_of "set" "Failed to serialize data."))%list /\
    bags h' = bags h /\
    fst (DynamicDB.get this (VString k) h')
      = fst (DynamicDB.get this (VString k) h) /\
    DynamicDB.keys this h' = (Normal (map fst (bags h o)), h').
Proof.
  intros Hb Hobj Hstr Hbig.
  destruct (set_refused_logged this o k v t h Hb Hobj Hstr Hbig)
    as (Hhost & h' & E & Hs & Hc).
  exists h'. split; [exact E|]. split; [exact Hhost|]. split; [exact Hc|].
  split; [apply Hs|].
  split; [exact (get_same_store this o _ h h' Hb Hs)|].
  rewrite (keys_bound this o Hb). destruct Hs as (-> & _). reflexivity.
Qed.

(** C8. Byte accounting: [bytes] holds no cache, on every heap it is the
    host's count for the owner at that moment; right after [reset] it
    is 0. *)
Theorem bytes_live_and_zero_after_reset (this : DynamicDB.t) (o : Owner)
    (h : Heap) :
  DynamicDB.PROPERTIES this = Some (HostObject o) ->
  DynamicDB.bytes this h = (Normal (Host.total_bytes (bags h o)), h) /\
  exists h',
    DynamicDB.reset this h = (Normal tt, h') /\
    DynamicDB.bytes this h' = (Normal 0%nat, h').
Proof.
  intros Hb. split.
  - unfold DynamicDB.bytes. now rewrite Hb.
  - exists (Host.with_bag h o []). split.
    + unfold DynamicDB.reset. now rewrite Hb.
    + unfold DynamicDB.bytes. rewrite Hb. cbn [Host.call].
      unfold Host.getDynamicPropertyTotalByteCount.
      now rewrite bags_with_bag.
Qed.

(** C5. Delete: on a bound store, [delete] of a string key with no slot
    returns false and leaves every slot unchanged; and for any key, a
    second [delete] right after a first returns false and changes no
    slot, so two deletes leave the store as one does. *)
Theorem delete_idempotent (this : DynamicDB.t) (o : Owner) (key : JsValue)
    (h : Heap) :
  DynamicDB.PROPERTIES this = Some (HostObject o) ->
  (Validator.isString key = true ->
   includes (map fst (bags h o)) key = false ->
   exists h', DynamicDB.delete this key h = (Normal false, h') /\
              bags h' = bags h) /\
  exists r1 h1 h2,
    DynamicDB.delete this key h = (Normal r1, h1) /\
    DynamicDB.delete this key h1 = (Normal false, h2) /\
    bags h2 = bags h1.
Proof.
  intros Hb.
  assert (Habsent : forall g, Validator.isString key = true ->
            includes (map fst (bags g o)) key = false ->
            exists g', DynamicDB.delete this key g = (Normal false, g') /\
                       bags g' = bags g).
  { intros g Hk Hinc. unfold DynamicDB.delete. rewrite Hk. cbn [negb].
    unfold bind at 1. rewrite (hasKey_bound this o Hb), Hinc. cbn [negb].
    destruct (log_then_ret this "DynamicDB" "delete"
                ("Key with name '" ++ string_of key ++ "' doesn't exist.")
                false g) as (g' & E & Hs & _).
    now exists g'. }
  split; [apply Habsent|].
  destruct (Validator.isString key) eqn:Hk.
  - destruct (includes (map fst (bags h o)) key) eqn:Hinc.
    + destruct key; try discriminate Hk.
      set (h1 := Host.with_bag h o (Host.remove s (bags h o))).
      assert (E1 : DynamicDB.delete this (VString s) h = (Normal true, h1)).
      { unfold DynamicDB.delete. cbn [Validator.isString negb].
        unfold bind at 1. rewrite (hasKey_bound this o Hb), Hinc. cbn [negb].
        unfold bind, Host.call. rewrite Hb. reflexivity. }
      destruct (Habsent h1 eq_refl) as (h2 & E2 & Hbags).
      { unfold h1. rewrite bags_with_bag. apply existsb_remove. }
      now exists true, h1, h2.
    + destruct (Habsent h eq_refl Hinc) as (h1 & E1 & Hb1).
      destruct (Habsent h1 eq_refl) as (h2 & E2 & Hb2);
        [now rewrite Hb1|].
      now exists false, h1, h2.
  - assert (Hbad : forall g, exists g',
              DynamicDB.delete this key g = (Normal false, g') /\
              bags g' = bags g).
    { intros g. unfold DynamicDB.delete. rewrite Hk. cbn [negb].
      destruct (log_then_ret this "DynamicDB" "delete"
                  "Key must be a string." false g) as (g' & E & Hs & _).
      now exists g'. }
    destruct (Hbad h) as (h1 & E1 & _). destruct (Hbad h1) as (h2 & E2 & Hb2).
    now exists false, h1, h2.
Qed.

(* ================================================================== *)
(** ** Theorems: merge *)

Lemma lookup_define_all {A} (p : string) (src target : list (string * A)) :
  distinct (map fst src) = true ->
  lookup p (define_all src target)
  = match lookup p src with
    | Some x => Some x
    | None => lookup p target
    end.
Proof.
  revert target. induction src as [|[k x] src IH]; intros target Hd;
    [reflexivity|].
  cbn [map fst distinct] in Hd. apply andb_true_iff in Hd as [Hk Hd].
  apply negb_true_iff in Hk. rewrite lookup_present in Hk.
  unfold define_all in *. cbn [fold_left fst snd lookup].
  rewrite IH by assumption.
  destruct (String.eqb_spec p k) as [-> | Hne].
  - destruct (lookup k src); [discriminate|]. apply lookup_define_property.
  - destruct (lookup p src); [reflexivity|].
    now apply lookup_define_property_other.
Qed.

Lemma push_valid (this : DynamicDB.t) (k : string) (v : JsValue) (h : Heap) :
  Validator.isObject v = true ->
  DynamicDB.push this (VString k) v h
  = (existing <- DynamicDB.get this (VString k) ;;
     DynamicDB.set this (VString k) (DynamicDB.dataMerge this existing v)) h.
Proof.
  intros Hobj. unfold DynamicDB.push. cbn [Validator.isString negb].
  now rewrite Hobj.
Qed.

(** C4. Shallow merge: on a bound store, for a string key and an object
    [v], [push] reads the value under the key, taking an absent one for
    the empty object, and hands [set] the merge of the two; in the merge
    every property of [v] has the value [v] gives it, whatever the old
    value was (a nested object is replaced, not merged), and the other
    properties keep their old value (property names being distinct, as
    an object's are).  The example of the spec runs as it says. *)
Theorem push_shallow_merge (this : DynamicDB.t) (o : Owner) (k : string)
    (v : JsValue) (h : Heap) :
  DynamicDB.PROPERTIES this = Some (HostObject o) ->
  Validator.isObject v = true ->
  (lookup k (bags h o) = None ->
   exists h0,
     DynamicDB.get this (VString k) h = (Normal VUndefined, h0) /\
     DynamicDB.push this (VString k) v h
     = DynamicDB.set this (VString k)
         (DynamicDB.dataMerge this (VObject []) v) h0) /\
  (forall text e,
     lookup k (bags h o) = Some text -> JSON.parse text = Normal e ->
     DynamicDB.push this (VString k) v h
     = DynamicDB.set this (VString k) (DynamicDB.dataMerge this e v) h) /\
  (forall e,
     distinct (map fst (own_properties v)) = true ->
     distinct (map fst (own_properties e)) = true ->
     exists ps,
       DynamicDB.dataMerge this e v = VObject ps /\
       forall p, lookup p ps
                 = match lookup p (own_properties v) with
                   | Some x => Some x
                   | None => lookup p (own_properties e)
                   end) /\
  fst ((DynamicDB.set world_db (VString "k") existing_ab ;;;
        DynamicDB.push world_db (VString "k") pushed_bc ;;;
        DynamicDB.get world_db (VString "k")) empty_heap)
  = Normal merged_abc.
Proof.
  intros Hb Hobj. split; [|split; [|split]].
  - intros Habs. destruct (get_absent this o Hb k h Habs) as (h0 & E & _).
    exists h0. split; [exact E|].
    rewrite push_valid by assumption. unfold bind. now rewrite E.
  - intros text e Hl Hparse. rewrite push_valid by assumption.
    unfold bind. rewrite (get_present this o Hb k text h Hl).
    unfold lift. now rewrite Hparse.
  - intros e Hdv Hde. eexists. split; [reflexivity|]. intros p.
    rewrite lookup_define_all by assumption.
    destruct (lookup p (own_properties v)); [reflexivity|].
    rewrite lookup_define_all by assumption.
    now destruct (lookup p (own_properties e)).
  - vm_compute. reflexivity.
Qed.

(* ================================================================== *)
(** ** Theorems: iteration *)

Lemma skipn_nth_error {A} (xs : list A) (i : nat) (x : A) :
  nth_error xs i = Some x -> skipn i xs = x :: skipn (S i) xs.
Proof.
  revert i. induction xs as [|y xs IH]; intros [|i] H; try discriminate.
  - now injection H as ->.
  - change (skipn i xs = x :: skipn (S i) xs). exact (IH _ H).
Qed.

Lemma nth_error_in_range {A} (xs : list A) (i : nat) :
  (i < List.length xs)%nat -> exists x, nth_error xs i = Some x.
Proof.
  intros H. destruct (nth_error xs i) eqn:E; [now eexists|].
  apply nth_error_None in E. lia.
Qed.

Lemma forEach_loop_visits (callbackfn : JsValue -> JsValue -> JS unit)
    (arr : list (JsValue * JsValue)) (n idx : nat) (h : Heap) :
  (idx + n = List.length arr)%nat ->
  DynamicDB.forEach_loop n callbackfn arr idx h
  = visit_each callbackfn (skipn idx arr) h.
Proof.
  revert idx h. induction n as [|n IH]; intros idx h Hlen.
  - assert (idx = List.length arr) by lia. subst idx.
    cbn [DynamicDB.forEach_loop]. rewrite Nat.ltb_irrefl, skipn_all.
    reflexivity.
  - cbn [DynamicDB.forEach_loop].
    destruct (Nat.ltb_spec idx (List.length arr)) as [Hlt|]; [|lia].
    destruct (nth_error_in_range arr idx Hlt) as ([key value] & E).
    rewrite E, (skipn_nth_error _ _ _ E). cbn [visit_each]. unfold bind.
    destruct (callbackfn value key h) as [[u| |] h1]; try reflexivity.
    apply IH. lia.
Qed.

Lemma find_loop_first (callbackfn : JsValue -> JsValue -> JS bool)
    (arr : list (JsValue * JsValue)) (n idx : nat) (h : Heap) :
  (idx + n = List.length arr)%nat ->
  DynamicDB.find_loop n callbackfn arr idx h
  = first_match callbackfn (skipn idx arr) h.
Proof.
  revert idx h. induction n as [|n IH]; intros idx h Hlen.
  - assert (idx = List.length arr) by lia. subst idx.
    cbn [DynamicDB.find_loop]. rewrite Nat.ltb_irrefl, skipn_all.
    reflexivity.
  - cbn [DynamicDB.find_loop].
    destruct (Nat.ltb_spec idx (List.length arr)) as [Hlt|]; [|lia].
    destruct (nth_error_in_range arr idx Hlt) as ([key value] & E).
    rewrite E, (skipn_nth_error _ _ _ E). cbn [first_match]. unfold bind.
    destruct (callbackfn value key h) as [[[|]| |] h1]; try reflexivity.
    apply IH. lia.
Qed.

(** C9. Snapshot: [forEach] and [find] first drive a fresh [entries()]
    to its end and only then call back, once per pair of that array in
    its order, whatever the callback does to the heap; a [values()]
    generator takes the same snapshot at its first [next()] and from then
    on answers from it without looking at the heap.  A callback that
    clears the store is still called for both entries. *)
Theorem iteration_over_snapshot (fuel : nat) (this : DynamicDB.t) :
  (forall callbackfn h,
     DynamicDB.forEach fuel this callbackfn h
     = (arr <- DynamicDB.entries_arr fuel this ;;
        visit_each callbackfn arr) h) /\
  (forall callbackfn h,
     DynamicDB.find fuel this callbackfn h
     = (arr <- DynamicDB.entries_arr fuel this ;;
        first_match callbackfn arr) h) /\
  (forall h,
     DynamicDB.values_next fuel this DynamicDB.ValuesFresh h
     = (arr <- DynamicDB.entries_arr fuel this ;;
        DynamicDB.values_loop arr 0) h) /\
  (forall arr idx h,
     DynamicDB.values_next fuel this (DynamicDB.ValuesAt arr idx) h
     = (Normal
          match nth_error arr idx with
          | Some (_, value) =>
              (Yielded value, DynamicDB.ValuesAt arr (S idx))
          | None => (Finished, DynamicDB.ValuesAt arr idx)
          end, h)) /\
  (fst after_forEach_reset = Normal tt /\
   bags (snd after_forEach_reset) TheWorld = [] /\
   map diag_location (console (snd after_forEach_reset))
   = ["first"; "last"]).
Proof.
  split; [|split; [|split; [|split]]].
  - intros callbackfn h. unfold DynamicDB.forEach, bind.
    destruct (DynamicDB.entries_arr fuel this h) as [[arr| |] h1];
      try reflexivity.
    now apply forEach_loop_visits.
  - intros callbackfn h. unfold DynamicDB.find, bind.
    destruct (DynamicDB.entries_arr fuel this h) as [[arr| |] h1];
      try reflexivity.
    now apply find_loop_first.
  - reflexivity.
  - intros arr idx h. cbn [DynamicDB.values_next].
    unfold DynamicDB.values_loop.
    destruct (Nat.ltb_spec idx (List.length arr)) as [Hlt | Hge].
    + destruct (nth_error_in_range arr idx Hlt) as ([key value] & E).
      now rewrite E.
    + apply nth_error_None in Hge. now rewrite Hge.
  - vm_compute. repeat split.
Qed.

(* ================================================================== *)
(** ** Lemmas: [entries] ends *)

Lemma get_keeps_store (this : DynamicDB.t) (o : Owner) (key : JsValue)
    (h : Heap) :
  DynamicDB.PROPERTIES this = Some (HostObject o) ->
  same_store h (snd (DynamicDB.get this key h)) /\
  fst (DynamicDB.get this key h) <> OutOfFuel.
Proof.
  intros Hb.
  destruct key;
    try (unfold DynamicDB.get; cbn [Validator.isString negb];
         destruct (log_then_ret this "DynamicDB" "get" "Key must be a string."
                     VUndefined h) as (h1 & -> & Hs);
         split; [exact Hs | discriminate]).
  destruct (lookup s (bags h o)) as [text|] eqn:E.
  - rewrite (get_present this o Hb s text h E). unfold lift. cbn [fst snd].
    split; [apply same_store_refl|].
    unfold JSON.parse.
    destruct (JSON.parse_value _ _) as [[v rest]|]; [|discriminate].
    destruct (JSON.skip_ws rest); discriminate.
  - destruct (get_absent this o Hb s h E) as (h1 & -> & Hs).
    split; [exact Hs | discriminate].
Qed.

Lemma entries_next_bound (this : DynamicDB.t) (o : Owner) (fuel key_idx : nat)
    (h : Heap) :
  DynamicDB.PROPERTIES this = Some (HostObject o) ->
  DynamicDB.entries_next (S fuel) this key_idx h
  = if (key_idx <? List.length (bags h o))%nat then
      let key := element (map fst (bags h o)) key_idx in
      match DynamicDB.get this key h with
      | (Normal value, h1) =>
          if Validator.isUndefined value
          then DynamicDB.entries_next fuel this (S key_idx) h1
          else (Normal (Yielded (key, value), S key_idx), h1)
      | (Throw e, h1) => (Throw e, h1)
      | (OutOfFuel, h1) => (OutOfFuel, h1)
      end
    else (Normal (Finished, key_idx), h).
Proof.
  intros Hb. cbn [DynamicDB.entries_next]. unfold bind at 1.
  rewrite (keys_bound this o Hb), length_map.
  destruct (key_idx <? List.length (bags h o))%nat; [|reflexivity].
  unfold bind at 1. rewrite (keys_bound this o Hb). unfold bind.
  cbv zeta.
  destruct (DynamicDB.get this (element (map fst (bags h o)) key_idx) h)
    as [[value| |] h1]; try reflexivity.
  now destruct (Validator.isUndefined value).
Qed.

(** One [next()] of [entries] ends when its fuel exceeds the number of
    slots still ahead; it leaves the slots alone, and a pair it yields
    comes from a position inside the bag. *)
Lemma entries_next_completes (this : DynamicDB.t) (o : Owner) :
  DynamicDB.PROPERTIES this = Some (HostObject o) ->
  forall fuel key_idx h,
    (List.length (bags h o) - key_idx < fuel)%nat ->
    fst (DynamicDB.entries_next fuel this key_idx h) <> OutOfFuel /\
    same_store h (snd (DynamicDB.entries_next fuel this key_idx h)) /\
    forall entry key_idx',
      fst (DynamicDB.entries_next fuel this key_idx h)
        = Normal (Yielded entry, key_idx') ->
      (key_idx < key_idx' <= List.length (bags h o))%nat.
Proof.
  intros Hb. induction fuel as [|fuel IH]; intros key_idx h Hfuel; [lia|].
  rewrite (entries_next_bound this o fuel key_idx h Hb). cbv zeta.
  destruct (Nat.ltb_spec key_idx (List.length (bags h o))) as [Hlt | Hge].
  - pose proof (get_keeps_store this o
                  (element (map fst (bags h o)) key_idx) h Hb) as [Hs Hnf].
    destruct (DynamicDB.get this (element (map fst (bags h o)) key_idx) h)
      as [[value| |] h1]; cbn [fst snd] in *.
    + destruct (Validator.isUndefined value).
      * destruct Hs as (Hbags & Hlim & Hdev).
        destruct (IH (S key_idx) h1) as (Hnf' & Hs' & Hy');
          [rewrite Hbags; lia|].
        split; [exact Hnf'|]. split.
        { apply (same_store_trans h h1);
            [repeat split; assumption | exact Hs']. }
        intros entry idx' E. specialize (Hy' entry idx' E).
        rewrite Hbags in Hy'. lia.
      * cbn [fst snd]. split; [discriminate|]. split; [exact Hs|].
        intros entry idx' E. injection E as _ <-. lia.
    + split; [discriminate|]. split; [exact Hs|]. discriminate.
    + now elim Hnf.
  - cbn [fst snd]. split; [discriminate|].
    split; [apply same_store_refl | discriminate].
Qed.

(** [[...entries()]] ends, normally or by a throw, once the fuel exceeds
    the number of slots. *)
Lemma entries_from_completes (this : DynamicDB.t) (o : Owner) :
  DynamicDB.PROPERTIES this = Some (HostObject o) ->
  forall fuel key_idx h,
    (List.length (bags h o) - key_idx < fuel)%nat ->
    fst (DynamicDB.entries_from fuel this key_idx h) <> OutOfFuel.
Proof.
  intros Hb. induction fuel as [|fuel IH]; intros key_idx h Hfuel; [lia|].
  cbn [DynamicDB.entries_from]. unfold bind at 1.
  destruct (entries_next_completes this o Hb (S fuel) key_idx h Hfuel)
    as (Hnf & (Hbags & _) & Hy).
  destruct (DynamicDB.entries_next (S fuel) this key_idx h)
    as [[[[entry|] idx']| |] h1]; cbn [fst snd] in *;
    try discriminate; try (now elim Hnf).
  specialize (Hy entry idx' eq_refl).
  unfold bind.
  assert (Hrest : (List.length (bags h1 o) - idx' < fuel)%nat)
    by (rewrite Hbags; lia).
  specialize (IH idx' h1 Hrest).
  destruct (DynamicDB.entries_from fuel this idx' h1) as [[rest| |] h2];
    cbn [fst] in *; try discriminate. now elim IH.
Qed.

(* ================================================================== *)
(** ** Theorems: text that does not parse *)

(** The two failures that [get] does turn into [undefined]: a key that
    is no string, and a key with no slot. *)
Lemma get_sentinel (this : DynamicDB.t) (o : Owner) (key : JsValue)
    (h : Heap) :
  DynamicDB.PROPERTIES this = Some (HostObject o) ->
  Validator.isString key = false \/
  includes (map fst (bags h o)) key = false ->
  exists h', DynamicDB.get this key h = (Normal VUndefined, h') /\
             same_store h h'.
Proof.
  intros Hb Hbad. unfold DynamicDB.get.
  destruct (Validator.isString key); cbn [negb].
  - destruct Hbad as [Hk | Hinc]; [discriminate|].
    unfold bind at 1. rewrite (hasKey_bound this o Hb), Hinc. cbn [negb].
    apply log_then_ret.
  - apply log_then_ret.
Qed.

(** Whatever [JSON.parse] throws on the text of a slot, [get] throws on. *)
Lemma get_corrupt_throws (this : DynamicDB.t) (o : Owner) (k text : string)
    (e : Exn) (h : Heap) :
  DynamicDB.PROPERTIES this = Some (HostObject o) ->
  lookup k (bags h o) = Some text ->
  JSON.parse text = Throw e ->
  DynamicDB.get this (VString k) h = (Throw e, h).
Proof.
  intros Hb Hl Hp. rewrite (get_present this o Hb k text h Hl).
  unfold lift. now rewrite Hp.
Qed.

(** C1. [get] on a slot whose text is no JSON: the key is a string and
    the slot exists, so both guards pass, and the [SyntaxError] of
    [JSON.parse] leaves [get]; nothing is logged. *)
Theorem get_corrupt_slot_throws :
  DynamicDB.get world_db (VString "k") corrupt_heap
  = (Throw (SyntaxError "Unexpected token in JSON"), corrupt_heap).
Proof.
  apply (get_corrupt_throws world_db TheWorld "k" "{"); reflexivity.
Qed.

(** C7. [entries] over a bag whose second slot holds text that is no
    JSON: the first [next()] yields the first entry, the second one
    throws, so a spread of [entries()] throws and the third entry is
    never reached. *)
Theorem entries_aborts_on_corrupt_slot :
  DynamicDB.entries_next 4 world_db 0 corrupt_heap
    = (Normal (Yielded (VString "first", VObject [("a", VNumber 1)]), 1%nat),
       corrupt_heap) /\
  DynamicDB.entries_next 4 world_db 1 corrupt_heap
    = (Throw (SyntaxError "Unexpected token in JSON"), corrupt_heap) /\
  DynamicDB.entries_arr 4 world_db corrupt_heap
    = (Throw (SyntaxError "Unexpected token in JSON"), corrupt_heap).
Proof. vm_compute. repeat split. Qed.

(* ================================================================== *)
(** ** Theorems: a store that was given no owner *)

Section Unbound.
Variable this : DynamicDB.t.
Hypothesis unbound : DynamicDB.PROPERTIES this = None.

Lemma keys_unbound (h : Heap) :
  DynamicDB.keys this h
  = (Throw (TypeError "Cannot read properties of undefined"), h).
Proof. unfold DynamicDB.keys. now rewrite unbound. Qed.

Lemma hasKey_unbound (key : JsValue) (h : Heap) :
  DynamicDB.hasKey this key h
  = (Throw (TypeError "Cannot read properties of undefined"), h).
Proof. unfold DynamicDB.hasKey, bind. now rewrite keys_unbound. Qed.

Lemma get_unbound (key : JsValue) (h : Heap) :
  Validator.isString key = true ->
  DynamicDB.get this key h
  = (Throw (TypeError "Cannot read properties of undefined"), h).
Proof.
  intros Hk. unfold DynamicDB.get. rewrite Hk. cbn [negb].
  unfold bind. now rewrite hasKey_unbound.
Qed.

Lemma delete_unbound (key : JsValue) (h : Heap) :
  Validator.isString key = true ->
  DynamicDB.delete this key h
  = (Throw (TypeError "Cannot read properties of undefined"), h).
Proof.
  intros Hk. unfold DynamicDB.delete. rewrite Hk. cbn [negb].
  unfold bind. now rewrite hasKey_unbound.
Qed.

Lemma push_unbound (key data : JsValue) (h : Heap) :
  Validator.isString key = true -> Validator.isObject data = true ->
  DynamicDB.push this key data h
  = (Throw (TypeError "Cannot read properties of undefined"), h).
Proof.
  intros Hk Hd. unfold DynamicDB.push. rewrite Hk, Hd. cbn [negb].
  unfold bind. now rewrite get_unbound.
Qed.

Lemma set_unbound (key data : JsValue) (h : Heap) :
  exists h', DynamicDB.set this key data h = (Normal false, h') /\
             same_store h h'.
Proof.
  apply set_not_bound. intros o. rewrite unbound. discriminate.
Qed.

End Unbound.

(** C10, as amended. A constructor argument that is no [World], [Player]
    or [Entity] makes the constructor call [log] and return a store whose
    backend is unassigned, without a throw.  On that store [bytes],
    [keys], [hasKey] and [reset] throw, the first [next()] of
    [entries()] throws, and [get], [delete] and [push] throw when their
    arguments pass validation and return their sentinel when they do
    not (for [push]: when the key is not a string or the value is not an
    object); [set] never throws: it returns false, for its use of the
    backend is inside the [try] block. *)
Theorem unbound_store_behaviour (type : ScriptObject) (h : Heap) :
  DynamicDB.IsInstanceOfType type = false ->
  exists this h0,
    DynamicDB.constructor type h = (Normal this, h0) /\
    DynamicDB.PROPERTIES this = None /\
    bags h0 = bags h /\
    console h0
      = (console h ++
         if dev_mode h then
           [{| diag_unit := "DynamicDB"; diag_location := "constructor";
               diag_message :=
                 "Type must be an instance of Player, Entity, or World." |}]
         else [])%list /\
    forall h1,
      (exists e, DynamicDB.bytes this h1 = (Throw e, h1)) /\
      (exists e, DynamicDB.keys this h1 = (Throw e, h1)) /\
      (exists e, DynamicDB.reset this h1 = (Throw e, h1)) /\
      (forall key, exists e, DynamicDB.hasKey this key h1 = (Throw e, h1)) /\
      (forall fuel, exists e,
         DynamicDB.entries_next (S fuel) this 0 h1 = (Throw e, h1)) /\
      (forall key, Validator.isString key = true ->
         (exists e, DynamicDB.get this key h1 = (Throw e, h1)) /\
         (exists e, DynamicDB.delete this key h1 = (Throw e, h1)) /\
         (forall data, Validator.isObject data = true ->
            exists e, DynamicDB.push this key data h1 = (Throw e, h1))) /\
      (forall key, Validator.isString key = false ->
         fst (DynamicDB.get this key h1) = Normal VUndefined /\
         fst (DynamicDB.delete this key h1) = Normal false /\
         forall data, fst (DynamicDB.push this key data h1) = Normal false) /\
      (forall key data, Validator.isObject data = false ->
         fst (DynamicDB.push this key data h1) = Normal false) /\
      (forall key data, exists h2,
         DynamicDB.set this key data h1 = (Normal false, h2) /\
         bags h2 = bags h1).
Proof.
  intros Hno.
  set (this := {| DynamicDB.PROPERTIES := None;
                  DynamicDB._Logger :=
                    if dev_mode h then Some Logger.Dev else None |}).
  assert (Hu : DynamicDB.PROPERTIES this = None) by reflexivity.
  assert (Hctor : exists h0,
            DynamicDB.constructor type h = (Normal this, h0) /\
            bags h0 = bags h /\
            console h0
            = (console h ++
               if dev_mode h then
                 [{| diag_unit := "DynamicDB"; diag_location := "constructor";
                     diag_message :=
                       "Type must be an instance of Player, Entity, or World."
                  |}]
               else [])%list).
  { unfold DynamicDB.constructor, bind at 1, Logger.DevMode.
    rewrite Hno. cbn [negb]. unfold bind, DynamicDB.log, ret.
    subst this. cbn [DynamicDB._Logger].
    destruct (dev_mode h).
    - eexists. split; [reflexivity|]. split; reflexivity.
    - exists h. split; [reflexivity|]. split; [reflexivity|].
      now rewrite List.app_nil_r. }
  destruct Hctor as (h0 & Hc & Hbags & Hcons).
  exists this, h0. repeat (split; [assumption|]).
  intros h1.
  split; [eexists; unfold DynamicDB.bytes; rewrite Hu; reflexivity|].
  split; [eexists; apply (keys_unbound this Hu)|].
  split; [eexists; unfold DynamicDB.reset; rewrite Hu; reflexivity|].
  split; [intros key; eexists; apply (hasKey_unbound this Hu)|].
  split.
  { intros fuel. eexists. cbn [DynamicDB.entries_next]. unfold bind.
    rewrite (keys_unbound this Hu). reflexivity. }
  split.
  { intros key Hk. split; [|split].
    - eexists. now apply (get_unbound this Hu).
    - eexists. now apply (delete_unbound this Hu).
    - intros data Hd. eexists. now apply (push_unbound this Hu). }
  split.
  { intros key Hk. split; [|split].
    - unfold DynamicDB.get. rewrite Hk. cbn [negb].
      destruct (log_then_ret this "DynamicDB" "get" "Key must be a string."
                  VUndefined h1) as (h2 & -> & _). reflexivity.
    - unfold DynamicDB.delete. rewrite Hk. cbn [negb].
      destruct (log_then_ret this "DynamicDB" "delete"
                  "Key must be a string." false h1) as (h2 & -> & _).
      reflexivity.
    - intros data. unfold DynamicDB.push. rewrite Hk. cbn [negb].
      destruct (log_then_ret this "DynamicDB" "push" "Key must be a string."
                  false h1) as (h2 & -> & _). reflexivity. }
  split.
  { intros key data Hd. unfold DynamicDB.push.
    destruct (Validator.isString key); cbn [negb].
    - rewrite Hd. cbn [negb].
      destruct (log_then_ret this "DynamicDB" "push" "Data must be a object."
                  false h1) as (h2 & -> & _). reflexivity.
    - destruct (log_then_ret this "DynamicDB" "push" "Key must be a string."
                  false h1) as (h2 & -> & _). reflexivity. }
  intros key data.
  destruct (set_unbound this Hu key data h1) as (h2 & E & Hs & _).
  now exists h2.
Qed.

(* ================================================================== *)
(** ** The theorems at concrete inputs *)

(** The round trip on the world store: the old object of the merge
    example, stored under the key k in an empty bag. *)
Lemma set_get_round_trip_witness :
  serializable existing_ab = true /\
  DynamicDB.set world_db (VString "k") existing_ab empty_heap
    = (Normal true, after_set_existing) /\
  DynamicDB.get world_db (VString "k") after_set_existing
    = (Normal existing_ab, after_set_existing).
Proof.
  split; [reflexivity|]. split; [reflexivity|].
  apply (set_get_round_trip world_db "k" existing_ab empty_heap
           after_set_existing);
    reflexivity.
Defined.

(** Validation on the two calls of the spec: a number for the key, and
    a string for the value. *)
Lemma set_rejects_invalid_witness :
  (exists h',
     DynamicDB.set world_db (VNumber 123) (VObject []) empty_heap
     = (Normal false, h') /\ bags h' = bags empty_heap) /\
  (exists h',
     DynamicDB.set world_db (VString "k") (VString "not an object")
       empty_heap
     = (Normal false, h') /\ bags h' = bags empty_heap).
Proof.
  split.
  - apply (set_rejects_invalid world_db (VNumber 123) (VObject [])).
    left. reflexivity.
  - apply (set_rejects_invalid world_db (VString "k")
             (VString "not an object")).
    right. reflexivity.
Defined.

(** A value of 18 bytes under a slot limit of 10. *)
Lemma set_oversize_refused_witness :
  JSON.stringify long_value = Normal (Some long_text) /\
  (slot_limit tight_heap < String.length long_text)%nat /\
  exists h',
    DynamicDB.set world_db (VString "k") long_value tight_heap
      = (Normal false, h') /\
    (exists e,
       Host.setDynamicProperty TheWorld (VString "k") (Some long_text)
         tight_heap = (Throw e, tight_heap)) /\
    console h'
    = (console tight_heap ++
       logged world_db (diagnostic_of "set" "Failed to serialize data."))%list /\
    bags h' = bags tight_heap /\
    fst (DynamicDB.get world_db (VString "k") h')
      = fst (DynamicDB.get world_db (VString "k") tight_heap) /\
    DynamicDB.keys world_db h'
      = (Normal (map fst (bags tight_heap TheWorld)), h').
Proof.
  split; [reflexivity|]. split; [vm_compute; lia|].
  apply (set_oversize_refused world_db TheWorld "k" long_value long_text
           tight_heap);
    try reflexivity.
  vm_compute. lia.
Defined.

(** The byte count of a bag of two slots, before and after [reset]. *)
Lemma bytes_live_and_zero_after_reset_witness :
  DynamicDB.bytes world_db two_slot_heap = (Normal 23%nat, two_slot_heap) /\
  exists h',
    DynamicDB.reset world_db two_slot_heap = (Normal tt, h') /\
    DynamicDB.bytes world_db h' = (Normal 0%nat, h').
Proof.
  exact (bytes_live_and_zero_after_reset world_db TheWorld two_slot_heap
           eq_refl).
Defined.

(** Two deletes of a key that is there, and one delete of a key that is
    not. *)
Lemma delete_idempotent_witness :
  (exists h',
     DynamicDB.delete world_db (VString "absent") two_slot_heap
       = (Normal false, h') /\
     bags h' = bags two_slot_heap) /\
  (exists r1 h1 h2,
     DynamicDB.delete world_db (VString "first") two_slot_heap
       = (Normal r1, h1) /\
     DynamicDB.delete world_db (VString "first") h1 = (Normal false, h2) /\
     bags h2 = bags h1).
Proof.
  split.
  - exact (proj1 (delete_idempotent world_db TheWorld (VString "absent")
                    two_slot_heap eq_refl) eq_refl eq_refl).
  - exact (proj2 (delete_idempotent world_db TheWorld (VString "first")
                    two_slot_heap eq_refl)).
Defined.

(** The merge of the spec's two objects: b and c come from the pushed
    object, a from the old one. *)
Lemma push_shallow_merge_witness :
  exists ps,
    DynamicDB.dataMerge world_db existing_ab pushed_bc = VObject ps /\
    forall p, lookup p ps
              = match lookup p (own_properties pushed_bc) with
                | Some x => Some x
                | None => lookup p (own_properties existing_ab)
                end.
Proof.
  destruct (push_shallow_merge world_db TheWorld "k" pushed_bc empty_heap
              eq_refl eq_refl)
    as (_ & _ & Hmerge & _).
  exact (Hmerge existing_ab eq_refl eq_refl).
Defined.

(** A store constructed from [null]. *)
Lemma unbound_store_behaviour_witness :
  DynamicDB.IsInstanceOfType (PlainValue VNull) = false /\
  exists this h0,
    DynamicDB.constructor (PlainValue VNull) empty_heap = (Normal this, h0) /\
    DynamicDB.PROPERTIES this = None /\
    exists h2,
      DynamicDB.set this (VString "k") (VObject []) h0 = (Normal false, h2) /\
      bags h2 = bags h0.
Proof.
  split; [reflexivity|].
  destruct (unbound_store_behaviour (PlainValue VNull) empty_heap eq_refl)
    as (this & h0 & Hc & Hu & _ & _ & Hops).
  exists this, h0. split; [exact Hc|]. split; [exact Hu|].
  exact (proj2 (proj2 (proj2 (proj2 (proj2 (proj2 (proj2 (proj2
           (Hops h0))))))))
           (VString "k") (VObject [])).
Defined.

(* ================================================================== *)
(** ** Where the stated claims fail *)

(** C2 as stated fails: with a slot limit of 10, [set] of a serializable
    object of 18 bytes returns false and writes no slot at all, neither
    chunk nor manifest; the [get] that follows does not return the
    value, and [keys] is empty, so the key is listed zero times, not
    once. *)
Lemma oversize_set_is_not_chunked :
  Validator.isObject long_value = true /\
  serializable long_value = true /\
  JSON.stringify long_value = Normal (Some long_text) /\
  (slot_limit tight_heap < String.length long_text)%nat /\
  fst (DynamicDB.set world_db (VString "k") long_value tight_heap)
    = Normal false /\
  bags after_set_long TheWorld = [] /\
  fst (DynamicDB.get world_db (VString "k") after_set_long)
    <> Normal long_value /\
  fst (DynamicDB.keys world_db after_set_long) = Normal [] /\
  count_occ string_dec [] "k" <> 1%nat.
Proof.
  vm_compute. repeat split; try discriminate. lia.
Qed.

(** C10 as stated fails: on a store constructed from [null], [set] with
    valid arguments returns false; it does not throw. *)
Lemma unbound_set_returns_sentinel :
  fst set_on_store_of_null = Normal false /\
  forall e, fst set_on_store_of_null <> Throw e.
Proof.
  vm_compute. split; [reflexivity | discriminate].
Qed.

(* ================================================================== *)
(** ** Further lemmas: outcomes of [log], [set] and [JSON.parse] *)


Lemma Owner_eqb_eq (a b : Owner) : Owner_eqb a b = true -> a = b.
Proof.
  destruct a, b; simpl; try discriminate; auto;
    intros H; apply Nat.eqb_eq in H; now subst.
Qed.

Lemma bags_with_bag_other (h : Heap) (o o' : Owner) (b : PropertyBag) :
  o <> o' -> bags (Host.with_bag h o b) o' = bags h o'.
Proof.
  intros Hne. simpl. destruct (Owner_eqb o o') eqn:E; [|reflexivity].
  elim Hne. now apply Owner_eqb_eq.
Qed.

(** An object is always written to a text, or refused. *)
Lemma serialize_object_outcome (data : JsValue) :
  Validator.isObject data = true ->
  (exists t, JSON.stringify data = Normal (Some t)) \/
  (exists e, JSON.stringify data = Throw e).
Proof.
  intros Hobj. destruct data; try discriminate Hobj.
  unfold JSON.stringify. rewrite serialize_object.
  pose proof (serialize_members_completes props) as Hnf.
  destruct (serialize_members props) as [ts|e|] eqn:E; cbn [cbind].
  - left. now eexists.
  - right. now eexists.
  - elim Hnf; [|reflexivity].
    apply Forall_forall. intros kv _. apply serialize_completes.
Qed.

(** The body of the [try] in [set]. *)
Lemma set_try (this : DynamicDB.t) (s : string) (data : JsValue) (h : Heap) :
  Validator.isObject data = true ->
  DynamicDB.set this (VString s) data h
  = try_catch
      (json_data <- lift (JSON.stringify data) ;;
       Host.call (DynamicDB.PROPERTIES this)
         (fun o => Host.setDynamicProperty o (VString s) json_data) ;;;
       ret true)
      (fun _ =>
         DynamicDB.log this "DynamicDB" "set" "Failed to serialize data." ;;;
         ret false) h.
Proof.
  intros Hd. unfold DynamicDB.set. cbn [Validator.isString negb].
  now rewrite Hd.
Qed.

(** When the body of the [try] throws, or when the store is bound and
    the text fits, what the body does. *)
Lemma set_body_outcome (this : DynamicDB.t) (s : string) (data : JsValue)
    (h : Heap) :
  Validator.isObject data = true ->
  (exists e,
     (json_data <- lift (JSON.stringify data) ;;
      Host.call (DynamicDB.PROPERTIES this)
        (fun o => Host.setDynamicProperty o (VString s) json_data) ;;;
      ret true) h = (Throw e, h)) \/
  (exists o t,
     DynamicDB.PROPERTIES this = Some (HostObject o) /\
     JSON.stringify data = Normal (Some t) /\
     (String.length t <= slot_limit h)%nat /\
     (json_data <- lift (JSON.stringify data) ;;
      Host.call (DynamicDB.PROPERTIES this)
        (fun o => Host.setDynamicProperty o (VString s) json_data) ;;;
      ret true) h
     = (Normal true, Host.with_bag h o (define_property s t (bags h o)))).
Proof.
  intros Hd.
  destruct (serialize_object_outcome data Hd) as [[t Ht] | [e He]].
  - destruct (DynamicDB.PROPERTIES this) as [[o | pv] |] eqn:Hp.
    + destruct (Nat.ltb_spec (slot_limit h) (String.length t)) as [Hbig | Hfit].
      * left. eexists. unfold bind, lift. rewrite Ht. cbn [Host.call].
        unfold Host.setDynamicProperty, bind. cbn [Host.identifier_of ret].
        destruct (Nat.ltb_spec (slot_limit h) (String.length t)); [|lia].
        reflexivity.
      * right. exists o, t. split; [reflexivity|]. split; [exact Ht|].
        split; [exact Hfit|].
        unfold bind, lift. rewrite Ht. cbn [Host.call].
        unfold Host.setDynamicProperty, bind. cbn [Host.identifier_of ret].
        destruct (Nat.ltb_spec (slot_limit h) (String.length t)); [lia|].
        reflexivity.
    + left. eexists. unfold bind, lift. rewrite Ht. reflexivity.
    + left. eexists. unfold bind, lift. rewrite Ht. reflexivity.
  - left. exists e. unfold bind, lift. now rewrite He.
Qed.

(** Every way [set] can end: the sentinel with one call of [log] and no
    slot changed, or true with the text of the value in the slot. *)
Lemma set_outcome (this : DynamicDB.t) (key data : JsValue) (h : Heap) :
  (exists h' m,
     DynamicDB.set this key data h = (Normal false, h') /\
     same_store h h' /\
     console h' = (console h ++ logged this (diagnostic_of "set" m))%list) \/
  (exists o s t,
     DynamicDB.PROPERTIES this = Some (HostObject o) /\
     key = VString s /\
     Validator.isObject data = true /\
     JSON.stringify data = Normal (Some t) /\
     (String.length t <= slot_limit h)%nat /\
     DynamicDB.set this key data h
     = (Normal true, Host.with_bag h o (define_property s t (bags h o)))).
Proof.
  destruct (Validator.isString key) eqn:Hk.
  2:{ left. unfold DynamicDB.set. rewrite Hk. cbn [negb].
      destruct (log_ret_effect this "set" "Key must be a string." false h)
        as (h' & E & Hs & Hc). now exists h', "Key must be a string.". }
  destruct (Validator.isObject data) eqn:Hd.
  2:{ left. unfold DynamicDB.set. rewrite Hk, Hd. cbn [negb].
      destruct (log_ret_effect this "set" "Data must be a object." false h)
        as (h' & E & Hs & Hc). now exists h', "Data must be a object.". }
  destruct key as [| | | | |s| |]; try discriminate Hk.
  rewrite (set_try this s data h Hd). unfold try_catch.
  destruct (set_body_outcome this s data h Hd)
    as [[e ->] | (o & t & Hp & Ht & Hfit & ->)].
  - left.
    destruct (log_ret_effect this "set" "Failed to serialize data." false h)
      as (h' & E & Hs & Hc). now exists h', "Failed to serialize data.".
  - right. now exists o, s, t.
Qed.

Lemma parse_value_defined (fuel : nat) (s : string) (v : JsValue)
    (rest : string) :
  JSON.parse_value fuel s = Some (v, rest) -> Validator.isUndefined v = false.
Proof.
  destruct fuel as [|f]; [discriminate|]. cbn [JSON.parse_value].
  unfold JSON.parse_literal, JSON.parse_number.
  repeat match goal with
         | |- context [match ?x with _ => _ end] => destruct x
         end;
    intros H; try discriminate H; injection H as <- _; reflexivity.
Qed.

(** [JSON.parse] ends with a value that is not [undefined], or with a
    throw. *)
Lemma parse_outcome (text : string) :
  (exists v, JSON.parse text = Normal v /\ Validator.isUndefined v = false) \/
  (exists e, JSON.parse text = Throw e).
Proof.
  unfold JSON.parse.
  destruct (JSON.parse_value _ text) as [[v rest]|] eqn:E.
  - destruct (JSON.skip_ws rest).
    + left. exists v. split; [reflexivity|]. exact (parse_value_defined _ _ _ _ E).
    + right. now eexists.
  - right. now eexists.
Qed.

(* ================================================================== *)
(** ** Further lemmas: what a read depends on *)

(** On a bound store the result of [get] is read off the slot alone. *)
Lemma get_result (this : DynamicDB.t) (o : Owner) (s : string) (h : Heap) :
  DynamicDB.PROPERTIES this = Some (HostObject o) ->
  fst (DynamicDB.get this (VString s) h)
  = match lookup s (bags h o) with
    | Some text => JSON.parse text
    | None => Normal VUndefined
    end.
Proof.
  intros Hb. destruct (lookup s (bags h o)) as [text|] eqn:E.
  - now rewrite (get_present this o Hb s text h E).
  - now destruct (get_absent this o Hb s h E) as (h' & -> & _).
Qed.

(** [get] changes no slot, on any store and whatever its outcome. *)
Lemma get_keeps_slots (this : DynamicDB.t) (key : JsValue) (h : Heap) :
  same_store h (snd (DynamicDB.get this key h)).
Proof.
  destruct (DynamicDB.PROPERTIES this) as [[o | pv] |] eqn:Hp.
  - exact (proj1 (get_keeps_store this o key h Hp)).
  - unfold DynamicDB.get. destruct (Validator.isString key); cbn [negb].
    + unfold bind, DynamicDB.hasKey, DynamicDB.keys, Host.call. rewrite Hp.
      apply same_store_refl.
    + now destruct (log_then_ret this "DynamicDB" "get"
                      "Key must be a string." VUndefined h) as (h' & -> & Hs).
  - unfold DynamicDB.get. destruct (Validator.isString key); cbn [negb].
    + unfold bind, DynamicDB.hasKey, DynamicDB.keys, Host.call. rewrite Hp.
      apply same_store_refl.
    + now destruct (log_then_ret this "DynamicDB" "get"
                      "Key must be a string." VUndefined h) as (h' & -> & Hs).
Qed.

Lemma get_not_string (this : DynamicDB.t) (key : JsValue) (h : Heap) :
  Validator.isString key = false ->
  fst (DynamicDB.get this key h) = Normal VUndefined.
Proof.
  intros Hk. unfold DynamicDB.get. rewrite Hk. cbn [negb].
  now destruct (log_then_ret this "DynamicDB" "get" "Key must be a string."
                  VUndefined h) as (h' & -> & _).
Qed.




Lemma keys_define_property {A} (k : string) (v : A) (ps : list (string * A)) :
  map fst (define_property k v ps)
  = if existsb (String.eqb k) (map fst ps) then map fst ps
    else (map fst ps ++ [k])%list.
Proof.
  induction ps as [|[k' v'] ps IH]; [reflexivity|].
  cbn [define_property map fst existsb].
  destruct (String.eqb k k') eqn:E; cbn [orb map fst]; [reflexivity|].
  rewrite IH. now destruct (existsb (String.eqb k) (map fst ps)).
Qed.

(* ================================================================== *)
(** ** Further theorems: the constructor and [set] *)

(** X1. The constructor never throws and changes no slot; given a
    [World], a [Player] or an [Entity] it binds the store to that very
    object and leaves the whole heap as it was, nothing logged; given
    anything else it leaves the backend unassigned. *)
Theorem constructor_outcome (type : ScriptObject) (h : Heap) :
  exists this h',
    DynamicDB.constructor type h = (Normal this, h') /\
    bags h' = bags h /\
    (DynamicDB.IsInstanceOfType type = true ->
     DynamicDB.PROPERTIES this = Some type /\ h' = h /\
     exists o, type = HostObject o) /\
    (DynamicDB.IsInstanceOfType type = false ->
     DynamicDB.PROPERTIES this = None).
Proof.
  unfold DynamicDB.constructor, bind at 1, Logger.DevMode.
  destruct (DynamicDB.IsInstanceOfType type) eqn:Hi; cbn [negb].
  - eexists. exists h. split; [reflexivity|]. split; [reflexivity|].
    split; [|discriminate]. intros _. split; [reflexivity|].
    split; [reflexivity|].
    destruct type as [o | v]; [now exists o | discriminate Hi].
  - destruct (log_then_ret
                {| DynamicDB.PROPERTIES := None;
                   DynamicDB._Logger :=
                     if dev_mode h then Some Logger.Dev else None |}
                "DynamicDB" "constructor"
                "Type must be an instance of Player, Entity, or World."
                {| DynamicDB.PROPERTIES := None;
                   DynamicDB._Logger :=
                     if dev_mode h then Some Logger.Dev else None |} h)
      as (h' & E & Hs & _).
    eexists. exists h'. split; [exact E|]. split; [exact Hs|].
    split; [discriminate | reflexivity].
Qed.

(** X2. [set] never throws, on any store and for any arguments: it
    returns a boolean.  When it returns false no slot has changed and
    [log] was called exactly once, at the location set; when it returns
    true nothing was logged. *)
Theorem set_never_throws (this : DynamicDB.t) (key data : JsValue)
    (h : Heap) :
  exists r h',
    DynamicDB.set this key data h = (Normal r, h') /\
    (r = false ->
     bags h' = bags h /\
     exists m, console h'
               = (console h ++ logged this (diagnostic_of "set" m))%list) /\
    (r = true -> console h' = console h).
Proof.
  destruct (set_outcome this key data h)
    as [(h' & m & E & (Hb & _) & Hc) | (o & s & t & _ & _ & _ & _ & _ & E)].
  - exists false, h'. split; [exact E|]. split; [|discriminate].
    intros _. split; [exact Hb | now exists m].
  - eexists true, _. split; [exact E|]. split; [discriminate|].
    reflexivity.
Qed.

(** [set] with valid arguments on a bound store is its host call: true
    with the heap the host left when the call returns, the catch branch
    when it throws. *)
Lemma set_via_host (this : DynamicDB.t) (o : Owner) (s : string)
    (data : JsValue) (t : string) (h : Heap) :
  DynamicDB.PROPERTIES this = Some (HostObject o) ->
  Validator.isObject data = true ->
  JSON.stringify data = Normal (Some t) ->
  DynamicDB.set this (VString s) data h
  = match Host.setDynamicProperty o (VString s) (Some t) h with
    | (Normal _, h1) => (Normal true, h1)
    | (Throw e, h1) =>
        (DynamicDB.log this "DynamicDB" "set" "Failed to serialize data." ;;;
         ret false) h1
    | (OutOfFuel, h1) => (OutOfFuel, h1)
    end.
Proof.
  intros Hb Hd Ht. rewrite (set_try this s data h Hd).
  unfold try_catch, bind at 1 2, lift. rewrite Ht, Hb. cbn [Host.call].
  now destruct (Host.setDynamicProperty o (VString s) (Some t) h)
    as [[u|e|] h1].
Qed.

(** X3. [set] returns true exactly when the store is bound to a host
    object, the key is a string, the value is an object that
    [JSON.stringify] writes to a text, and the host's
    [setDynamicProperty] called with that key and text returns; the heap
    is then the one the host call left.  Whether the host accepts the
    write is the host's affair: the statement holds for its every
    answer. *)
Theorem set_true_iff (this : DynamicDB.t) (key data : JsValue)
    (h h' : Heap) :
  DynamicDB.set this key data h = (Normal true, h') <->
  exists o s t,
    DynamicDB.PROPERTIES this = Some (HostObject o) /\
    key = VString s /\
    Validator.isObject data = true /\
    JSON.stringify data = Normal (Some t) /\
    Host.setDynamicProperty o (VString s) (Some t) h = (Normal tt, h').
Proof.
  split.
  - intros Hset.
    destruct (set_outcome this key data h)
      as [(h1 & m & E & _) | (o & s & t & Hp & -> & Hd & Ht & _ & _)].
    + rewrite E in Hset. discriminate Hset.
    + exists o, s, t. repeat (split; [assumption || reflexivity|]).
      rewrite (set_via_host this o s data t h Hp Hd Ht) in Hset.
      destruct (Host.setDynamicProperty o (VString s) (Some t) h)
        as [[[]|e|] h1].
      * now injection Hset as <-.
      * destruct (log_then_ret this "DynamicDB" "set"
                    "Failed to serialize data." false h1) as (h2 & E & _).
        rewrite E in Hset. discriminate Hset.
      * discriminate Hset.
  - intros (o & s & t & Hp & -> & Hd & Ht & Hhost).
    rewrite (set_via_host this o s data t h Hp Hd Ht). now rewrite Hhost.
Qed.

(** X4. Frame: on a bound store a call of [set] on one key, whatever its
    outcome, leaves the result of [get] on every other key as it was. *)
Theorem set_leaves_other_keys (this : DynamicDB.t) (o : Owner)
    (s : string) (data key' : JsValue) (h : Heap) :
  DynamicDB.PROPERTIES this = Some (HostObject o) ->
  key' <> VString s ->
  fst (DynamicDB.get this key'
         (snd (DynamicDB.set this (VString s) data h)))
  = fst (DynamicDB.get this key' h).
Proof.
  intros Hb Hne.
  destruct (set_outcome this (VString s) data h)
    as [(h' & m & E & Hs & _) | (o1 & s1 & t & Hp & Hk & _ & _ & _ & E)];
    rewrite E; cbn [snd].
  - exact (get_same_store this o key' h h' Hb Hs).
  - rewrite Hb in Hp. injection Hp as <-. injection Hk as <-.
    destruct key' as [| | | | |s'| |];
      try (now rewrite !get_not_string by reflexivity).
    rewrite !(get_result this o s' _ Hb), bags_with_bag.
    rewrite lookup_define_property_other; [reflexivity | congruence].
Qed.

(** X5. [hasKey] after a successful [set] on a bound store: it is true
    of the key that was set, and of every other key it is what it was
    before the call. *)
Theorem set_adds_key_only (this : DynamicDB.t) (o : Owner) (s : string)
    (data : JsValue) (h h' : Heap) :
  DynamicDB.PROPERTIES this = Some (HostObject o) ->
  DynamicDB.set this (VString s) data h = (Normal true, h') ->
  DynamicDB.hasKey this (VString s) h' = (Normal true, h') /\
  forall key', key' <> VString s ->
    fst (DynamicDB.hasKey this key' h') = fst (DynamicDB.hasKey this key' h).
Proof.
  intros Hb Hset.
  destruct (set_outcome this (VString s) data h)
    as [(h1 & m & E & _) | (o1 & s1 & t & Hp & Hk & _ & _ & _ & E)];
    rewrite E in Hset; [discriminate Hset|].
  injection Hset as <-. rewrite Hb in Hp. injection Hp as <-.
  injection Hk as <-. split.
  - rewrite (hasKey_bound this o Hb), bags_with_bag. cbn [includes].
    now rewrite lookup_present, lookup_define_property.
  - intros key' Hne. rewrite !(hasKey_bound this o Hb), bags_with_bag.
    cbn [fst]. destruct key' as [| | | | |s'| |]; try reflexivity.
    cbn [includes]. rewrite !lookup_present.
    rewrite lookup_define_property_other; [reflexivity | congruence].
Qed.

(* ================================================================== *)
(** ** Further theorems: [get], [delete] and [reset] *)

(** X6. On a bound store [get] returns [undefined] in exactly two
    cases: the key is not a string, or no slot has that key.  A slot that
    is there gives a value that is not [undefined], or a throw. *)
Theorem get_undefined_iff (this : DynamicDB.t) (o : Owner) (key : JsValue)
    (h : Heap) :
  DynamicDB.PROPERTIES this = Some (HostObject o) ->
  fst (DynamicDB.get this key h) = Normal VUndefined <->
  Validator.isString key = false \/
  includes (map fst (bags h o)) key = false.
Proof.
  intros Hb. split.
  - intros Hget. destruct (Validator.isString key) eqn:Hk; [right | now left].
    destruct key as [| | | | |s| |]; try discriminate Hk.
    rewrite (get_result this o s h Hb) in Hget. cbn [includes].
    rewrite lookup_present. destruct (lookup s (bags h o)) as [text|];
      [|reflexivity].
    destruct (parse_outcome text) as [(v & Hp & Hv) | (e & Hp)];
      rewrite Hp in Hget; [|discriminate Hget].
    injection Hget as ->. discriminate Hv.
  - intros Hbad. now destruct (get_sentinel this o key h Hb Hbad) as (h' & -> & _).
Qed.


(** X8. On a bound store [reset] never fails and logs nothing;
    afterwards there is no key, [get] gives [undefined] and [delete]
    gives false for every key, a spread of [entries()] is empty, and the
    bags of the other owners are what they were. *)
Theorem reset_empties_store (this : DynamicDB.t) (o : Owner) (h : Heap) :
  DynamicDB.PROPERTIES this = Some (HostObject o) ->
  exists h',
    DynamicDB.reset this h = (Normal tt, h') /\
    console h' = console h /\
    (forall o', o' <> o -> bags h' o' = bags h o') /\
    DynamicDB.keys this h' = (Normal [], h') /\
    (forall key, fst (DynamicDB.get this key h') = Normal VUndefined) /\
    (forall key, fst (DynamicDB.delete this key h') = Normal false) /\
    (forall fuel, DynamicDB.entries_arr (S fuel) this h' = (Normal [], h')).
Proof.
  intros Hb. exists (Host.with_bag h o []).
  split; [unfold DynamicDB.reset; now rewrite Hb|].
  split; [reflexivity|].
  split; [intros o' Hne; apply bags_with_bag_other; congruence|].
  split; [now rewrite (keys_bound this o Hb), bags_with_bag|].
  split.
  { intros key.
    destruct (get_sentinel this o key (Host.with_bag h o []) Hb)
      as (h' & -> & _); [|reflexivity].
    right. rewrite bags_with_bag. now destruct key. }
  split.
  { intros key. unfold DynamicDB.delete.
    destruct (Validator.isString key); cbn [negb].
    - unfold bind at 1. rewrite (hasKey_bound this o Hb), bags_with_bag.
      cbn [map]. assert (E : includes [] key = false) by (now destruct key).
      rewrite E. cbn [negb].
      now destruct (log_then_ret this "DynamicDB" "delete"
                      ("Key with name '" ++ string_of key ++ "' doesn't exist.")
                      false (Host.with_bag h o [])) as (h' & -> & _).
    - now destruct (log_then_ret this "DynamicDB" "delete"
                      "Key must be a string." false (Host.with_bag h o []))
        as (h' & -> & _). }
  intros fuel. unfold DynamicDB.entries_arr. cbn [DynamicDB.entries_from].
  unfold bind. rewrite (entries_next_bound this o fuel 0 _ Hb).
  now rewrite bags_with_bag.
Qed.

(* ================================================================== *)
(** ** Further theorems: iteration *)

Lemma nth_error_includes (ks : list string) (i : nat) (k : string) :
  nth_error ks i = Some k -> existsb (String.eqb k) ks = true.
Proof.
  intros H. apply existsb_exists. exists k.
  split; [exact (nth_error_In _ _ H) | apply String.eqb_refl].
Qed.

Lemma parse_completes (text : string) : JSON.parse text <> OutOfFuel.
Proof.
  destruct (parse_outcome text) as [(v & -> & _) | (e & ->)]; discriminate.
Qed.

(** One [next()] of [entries] on a bound store, at a position inside the
    bag: the slot's text is parsed; a value is yielded, a throw leaves
    the generator, and the skip is never taken. *)
Lemma entries_next_at (this : DynamicDB.t) (o : Owner) (fuel idx : nat)
    (k : string) (h : Heap) :
  DynamicDB.PROPERTIES this = Some (HostObject o) ->
  nth_error (map fst (bags h o)) idx = Some k ->
  DynamicDB.entries_next (S fuel) this idx h
  = match JSON.parse (text_of (lookup k (bags h o))) with
    | Normal value => (Normal (Yielded (VString k, value), S idx), h)
    | Throw e => (Throw e, h)
    | OutOfFuel => (OutOfFuel, h)
    end.
Proof.
  intros Hb Hk. rewrite (entries_next_bound this o fuel idx h Hb).
  assert (Hlt : (idx < List.length (bags h o))%nat).
  { rewrite <- (length_map fst). apply nth_error_Some. congruence. }
  destruct (Nat.ltb_spec idx (List.length (bags h o))); [|lia].
  cbv zeta. unfold element. rewrite Hk.
  pose proof (nth_error_includes _ _ _ Hk) as Hin.
  rewrite lookup_present in Hin.
  destruct (lookup k (bags h o)) as [text|] eqn:El; [|discriminate Hin].
  rewrite (get_present this o Hb k text h El). unfold lift. cbn [text_of].
  destruct (parse_outcome text) as [(v & -> & Hv) | (e & ->)];
    [now rewrite Hv | reflexivity].
Qed.

(** A spread of [entries()] from any position, with fuel for the slots
    ahead. *)
Lemma entries_from_collects (this : DynamicDB.t) (o : Owner) :
  DynamicDB.PROPERTIES this = Some (HostObject o) ->
  forall fuel idx h,
    (List.length (bags h o) - idx < fuel)%nat ->
    DynamicDB.entries_from fuel this idx h
    = (collect_entries (bags h o) (skipn idx (map fst (bags h o))), h).
Proof.
  intros Hb. induction fuel as [|fuel IH]; intros idx h Hfuel; [lia|].
  cbn [DynamicDB.entries_from]. unfold bind at 1.
  destruct (nth_error (map fst (bags h o)) idx) as [k|] eqn:Hk.
  - rewrite (entries_next_at this o fuel idx k h Hb Hk).
    rewrite (skipn_nth_error _ _ _ Hk). cbn [collect_entries].
    assert (Hlt : (idx < List.length (bags h o))%nat).
    { rewrite <- (length_map fst). apply nth_error_Some. congruence. }
    destruct (JSON.parse (text_of (lookup k (bags h o)))) as [v|e|];
      cbn [cbind]; try reflexivity.
    unfold bind. rewrite IH by lia.
    now destruct (collect_entries (bags h o)
                    (skipn (S idx) (map fst (bags h o)))).
  - apply nth_error_None in Hk. rewrite length_map in Hk.
    rewrite (entries_next_bound this o fuel idx h Hb).
    destruct (Nat.ltb_spec idx (List.length (bags h o))); [lia|].
    rewrite skipn_all2 by (rewrite length_map; lia). reflexivity.
Qed.

(** X9. A spread of [entries()] on a bound store, with fuel for every
    slot: the keys are taken in enumeration order and the text of each
    is parsed; the result is the list of all (key, value) pairs if every
    text parses, and the throw of the first text that does not.  No key
    is skipped, nothing is logged, and the heap is left as it was. *)
Theorem entries_collects_slots (this : DynamicDB.t) (o : Owner)
    (fuel : nat) (h : Heap) :
  DynamicDB.PROPERTIES this = Some (HostObject o) ->
  (List.length (bags h o) < fuel)%nat ->
  DynamicDB.entries_arr fuel this h
  = (collect_entries (bags h o) (map fst (bags h o)), h).
Proof.
  intros Hb Hfuel. unfold DynamicDB.entries_arr.
  rewrite (entries_from_collects this o Hb fuel 0 h) by lia. reflexivity.
Qed.

(** X10. When the text of every slot parses, a spread of [entries()] on
    a bound store has one pair per slot, in enumeration order: the key
    of the slot with the value its text parses to. *)
Theorem entries_lists_every_slot (this : DynamicDB.t) (o : Owner)
    (fuel : nat) (h : Heap) (vals : list JsValue) :
  DynamicDB.PROPERTIES this = Some (HostObject o) ->
  (List.length (bags h o) < fuel)%nat ->
  distinct (map fst (bags h o)) = true ->
  Forall2 (fun kv v => JSON.parse (snd kv) = Normal v) (bags h o) vals ->
  DynamicDB.entries_arr fuel this h
  = (Normal (map (fun kvv => (VString (fst (fst kvv)), snd kvv))
               (combine (bags h o) vals)), h).
Proof.
  intros Hb Hfuel Hd Hall. unfold DynamicDB.entries_arr.
  rewrite (entries_from_collects this o Hb fuel 0 h) by lia.
  cbn [skipn]. f_equal.
  assert (Hgen : forall bag0 bag vs,
            distinct (map fst bag) = true ->
            (forall k t, In (k, t) bag -> lookup k bag0 = Some t) ->
            Forall2 (fun kv v => JSON.parse (snd kv) = Normal v) bag vs ->
            collect_entries bag0 (map fst bag)
            = Normal (map (fun kvv => (VString (fst (fst kvv)), snd kvv))
                        (combine bag vs))).
  { intros bag0 bag vs _ Hlook HF. induction HF as [|[k t] v bag vs Hp _ IH];
      [reflexivity|].
    cbn [map fst snd collect_entries combine].
    rewrite (Hlook k t (or_introl eq_refl)). cbn [text_of snd] in *.
    rewrite Hp. cbn [cbind]. rewrite IH; [reflexivity|].
    intros k' t' Hin. apply Hlook. now right. }
  apply Hgen; [exact Hd | | exact Hall].
  clear Hall Hfuel. induction (bags h o) as [|[k t] bag IH];
    [intros k' t' []|].
  cbn [map fst distinct] in Hd. apply andb_true_iff in Hd as [Hk Hd].
  apply negb_true_iff in Hk.
  intros k' t' [E | Hin]; cbn [lookup].
  - injection E as <- <-. now rewrite String.eqb_refl.
  - destruct (String.eqb_spec k' k) as [-> | _]; [|now apply IH].
    exfalso. assert (Hex : existsb (String.eqb k) (map fst bag) = true).
    { apply existsb_exists. exists k. split; [|apply String.eqb_refl].
      apply in_map_iff. now exists (k, t'). }
    congruence.
Qed.

Lemma first_match_pure (p : JsValue -> JsValue -> bool)
    (arr : list (JsValue * JsValue)) (h : Heap) :
  first_match (fun value key => ret (p value key)) arr h
  = (Normal (found_value p arr), h).
Proof.
  unfold found_value. induction arr as [|[key value] arr IH]; [reflexivity|].
  cbn [first_match List.find fst snd]. unfold bind, ret at 1.
  destruct (p value key); [reflexivity | exact IH].
Qed.

(** X11. [find] with a predicate that has no effects, on a bound store
    with fuel for every slot: it returns the value of the first slot, in
    enumeration order, that the predicate accepts, and [undefined] when
    there is none; it throws what the first corrupt slot throws; the heap
    is left as it was. *)
Theorem find_first_accepted (this : DynamicDB.t) (o : Owner) (fuel : nat)
    (p : JsValue -> JsValue -> bool) (h : Heap) :
  DynamicDB.PROPERTIES this = Some (HostObject o) ->
  (List.length (bags h o) < fuel)%nat ->
  DynamicDB.find fuel this (fun value key => ret (p value key)) h
  = (cbind (collect_entries (bags h o) (map fst (bags h o)))
       (fun arr => Normal (found_value p arr)), h).
Proof.
  intros Hb Hfuel. unfold DynamicDB.find, bind, DynamicDB.entries_arr.
  rewrite (entries_from_collects this o Hb fuel 0 h) by lia. cbn [skipn].
  destruct (collect_entries (bags h o) (map fst (bags h o))) as [arr|e|];
    cbn [cbind]; try reflexivity.
  rewrite find_loop_first by lia. cbn [skipn]. apply first_match_pure.
Qed.

(** X12. [forEach] on a bound store with fuel for every slot: when the
    text of every slot parses, the callback is called once per slot, in
    enumeration order, with the parsed value and the key, each call
    starting from the heap the one before left, and a throw of the
    callback ends the loop; when some text does not parse, [forEach]
    throws before the callback is called at all. *)
Theorem forEach_visits_slots (this : DynamicDB.t) (o : Owner) (fuel : nat)
    (callbackfn : JsValue -> JsValue -> JS Datatypes.unit) (h : Heap) :
  DynamicDB.PROPERTIES this = Some (HostObject o) ->
  (List.length (bags h o) < fuel)%nat ->
  DynamicDB.forEach fuel this callbackfn h
  = match collect_entries (bags h o) (map fst (bags h o)) with
    | Normal arr => visit_each callbackfn arr h
    | Throw e => (Throw e, h)
    | OutOfFuel => (OutOfFuel, h)
    end.
Proof.
  intros Hb Hfuel. unfold DynamicDB.forEach, bind, DynamicDB.entries_arr.
  rewrite (entries_from_collects this o Hb fuel 0 h) by lia. cbn [skipn].
  destruct (collect_entries (bags h o) (map fst (bags h o))) as [arr|e|];
    try reflexivity.
  now rewrite forEach_loop_visits by lia.
Qed.

(* ================================================================== *)
(** ** Further theorems: [push] and [dataMerge] *)

Lemma push_invalid (this : DynamicDB.t) (key data : JsValue) (h : Heap) :
  Validator.isString key = false \/ Validator.isObject data = false ->
  exists h' m,
    DynamicDB.push this key data h = (Normal false, h') /\
    same_store h h' /\
    console h' = (console h ++ logged this (diagnostic_of "push" m))%list.
Proof.
  intros Hbad. unfold DynamicDB.push.
  destruct (Validator.isString key); cbn [negb].
  - destruct Hbad as [Hk | Hd]; [discriminate|]. rewrite Hd. cbn [negb].
    destruct (log_ret_effect this "push" "Data must be a object." false h)
      as (h' & E & Hs & Hc). now exists h', "Data must be a object.".
  - destruct (log_ret_effect this "push" "Key must be a string." false h)
      as (h' & E & Hs & Hc). now exists h', "Key must be a string.".
Qed.

(** X13. [push] with a key that is not a string or a value that is not
    an object returns false on any store, bound or not: the backend is
    neither read nor written, and [log] is called once, at the location
    push. *)
Theorem push_rejects_invalid (this : DynamicDB.t) (key data : JsValue)
    (h : Heap) :
  Validator.isString key = false \/ Validator.isObject data = false ->
  exists h' m,
    DynamicDB.push this key data h = (Normal false, h') /\
    bags h' = bags h /\
    console h' = (console h ++ logged this (diagnostic_of "push" m))%list.
Proof.
  intros Hbad.
  destruct (push_invalid this key data h Hbad) as (h' & m & E & (Hs & _) & Hc).
  now exists h', m.
Qed.

(** X14. [push] onto a slot whose text does not parse: the throw of
    [JSON.parse] leaves [push], nothing is written and nothing is
    logged. *)
Theorem push_corrupt_slot_throws (this : DynamicDB.t) (o : Owner)
    (s text : string) (data : JsValue) (e : Exn) (h : Heap) :
  DynamicDB.PROPERTIES this = Some (HostObject o) ->
  Validator.isObject data = true ->
  lookup s (bags h o) = Some text ->
  JSON.parse text = Throw e ->
  DynamicDB.push this (VString s) data h = (Throw e, h).
Proof.
  intros Hb Hd Hl Hp. rewrite push_valid by assumption.
  unfold bind. now rewrite (get_corrupt_throws this o s text e h Hb Hl Hp).
Qed.

(** X15. [push] then [get]: when [push(k, v)] returns true, the [get(k)]
    that follows returns the merge of what [get(k)] returned before the
    call with [v], provided the merge is serializable; for a key that
    had no slot and a serializable [v] that is [v] itself. *)
Theorem push_then_get (this : DynamicDB.t) (s : string)
    (v existing : JsValue) (h h0 h' : Heap) :
  DynamicDB.get this (VString s) h = (Normal existing, h0) ->
  DynamicDB.push this (VString s) v h = (Normal true, h') ->
  (serializable (DynamicDB.dataMerge this existing v) = true ->
   DynamicDB.get this (VString s) h'
   = (Normal (DynamicDB.dataMerge this existing v), h')) /\
  (existing = VUndefined -> serializable v = true ->
   DynamicDB.get this (VString s) h' = (Normal v, h')).
Proof.
  intros Hget Hpush.
  assert (Hobj : Validator.isObject v = true).
  { destruct (Validator.isObject v) eqn:Hd; [reflexivity|].
    destruct (push_invalid this (VString s) v h (or_intror Hd))
      as (h1 & m & E & _).
    rewrite E in Hpush. discriminate Hpush. }
  rewrite (push_valid this s v h Hobj) in Hpush. unfold bind in Hpush.
  rewrite Hget in Hpush.
  assert (Hmain : serializable (DynamicDB.dataMerge this existing v) = true ->
            DynamicDB.get this (VString s) h'
            = (Normal (DynamicDB.dataMerge this existing v), h')).
  { intros Hser.
    destruct (set_outcome this (VString s)
                (DynamicDB.dataMerge this existing v) h0)
      as [(h1 & m & E & _) | (o & s1 & t & Hp & Hk & _ & Ht & _ & E)];
      rewrite E in Hpush; [discriminate Hpush|].
    injection Hpush as <-. injection Hk as <-.
    destruct (parse_stringify _ Hser) as (t' & Ht' & Hparse).
    rewrite Ht in Ht'. injection Ht' as <-.
    rewrite (get_present this o Hp s t).
    - unfold lift. now rewrite Hparse.
    - rewrite bags_with_bag. apply lookup_define_property. }
  split; [exact Hmain|].
  intros -> Hser.
  assert (Hmerge : DynamicDB.dataMerge this VUndefined v = v).
  { destruct v as [| | | | | | |ps]; try discriminate Hobj.
    unfold DynamicDB.dataMerge, spread2. cbn [own_properties].
    cbn [serializable] in Hser. apply andb_true_iff in Hser as [_ Hd].
    change (define_all [] []) with (@nil (string * JsValue)).
    now rewrite define_all_fresh. }
  rewrite Hmerge in Hmain. now apply Hmain.
Qed.

Lemma lookup_member {A} (k : string) (v : A) (ps : list (string * A)) :
  distinct (map fst ps) = true -> In (k, v) ps -> lookup k ps = Some v.
Proof.
  induction ps as [|[k' v'] ps IH]; intros Hd Hin; [destruct Hin|].
  cbn [map fst distinct] in Hd. apply andb_true_iff in Hd as [Hk Hd].
  apply negb_true_iff in Hk. cbn [lookup].
  destruct Hin as [E | Hin].
  - injection E as -> ->. now rewrite String.eqb_refl.
  - destruct (String.eqb_spec k k') as [-> | _]; [|now apply IH].
    exfalso. assert (Hex : existsb (String.eqb k') (map fst ps) = true).
    { apply existsb_exists. exists k'. split; [|apply String.eqb_refl].
      apply in_map_iff. now exists (k', v). }
    congruence.
Qed.

Lemma define_property_same {A} (k : string) (v : A) (ps : list (string * A)) :
  lookup k ps = Some v -> define_property k v ps = ps.
Proof.
  induction ps as [|[k' v'] ps IH]; [discriminate|].
  cbn [lookup define_property].
  destruct (String.eqb k k'); [now intros [= ->] | intros H; now rewrite IH].
Qed.

Lemma distinct_snoc (k : string) (ks : list string) :
  distinct ks = true -> existsb (String.eqb k) ks = false ->
  distinct (ks ++ [k]) = true.
Proof.
  induction ks as [|k' ks IH]; intros Hd Hk; [reflexivity|].
  cbn [distinct existsb] in Hd, Hk. rewrite <- List.app_comm_cons.
  cbn [distinct].
  apply orb_false_iff in Hk as [Hkk' Hk].
  apply andb_true_iff in Hd as [Hk' Hd].
  rewrite (IH Hd Hk), andb_true_r, existsb_app, negb_orb, Hk'.
  cbn [existsb]. now rewrite String.eqb_sym, Hkk'.
Qed.

(** Defining properties one by one never makes a name appear twice. *)
Lemma define_all_keeps_distinct {A} (src target : list (string * A)) :
  distinct (map fst target) = true ->
  distinct (map fst (define_all src target)) = true.
Proof.
  revert target. induction src as [|[k x] src IH]; intros target Ht;
    [exact Ht|].
  unfold define_all in *. cbn [fold_left fst snd]. apply IH.
  rewrite keys_define_property.
  destruct (existsb (String.eqb k) (map fst target)) eqn:Ex;
    [exact Ht | now apply distinct_snoc].
Qed.

Lemma define_all_present {A} (src target : list (string * A)) :
  (forall k v, In (k, v) src -> lookup k target = Some v) ->
  define_all src target = target.
Proof.
  revert target. induction src as [|[k v] src IH]; intros target Hall;
    [reflexivity|].
  unfold define_all in *. cbn [fold_left fst snd].
  rewrite define_property_same by (apply Hall; now left).
  apply IH. intros k' v' Hin. apply Hall. now right.
Qed.

(** X16. [dataMerge] always gives an object, so the [set] inside [push]
    never fails on its value guard.  Merging is idempotent: merging the
    same object over the result again changes nothing; and merging the
    empty object over an object, or an object over [undefined], gives
    the object back (property names being distinct, as an object's
    are). *)
Theorem dataMerge_laws (this : DynamicDB.t) (existing v : JsValue) :
  distinct (map fst (own_properties v)) = true ->
  Validator.isObject (DynamicDB.dataMerge this existing v) = true /\
  DynamicDB.dataMerge this (DynamicDB.dataMerge this existing v) v
  = DynamicDB.dataMerge this existing v /\
  DynamicDB.dataMerge this (VObject (own_properties v)) (VObject [])
  = VObject (own_properties v) /\
  DynamicDB.dataMerge this VUndefined v = VObject (own_properties v).
Proof.
  intros Hd. unfold DynamicDB.dataMerge, spread2. cbn [own_properties].
  split; [reflexivity|]. split; [|split].
  - f_equal.
    set (once := define_all (own_properties v)
                   (define_all (own_properties existing) [])).
    assert (Hall : forall k x, In (k, x) (own_properties v) ->
              lookup k once = Some x).
    { intros k x Hin. unfold once. rewrite lookup_define_all by assumption.
      now rewrite (lookup_member k x _ Hd Hin). }
    assert (Hnorm : define_all once [] = once).
    { apply define_all_fresh. unfold once.
      apply define_all_keeps_distinct, define_all_keeps_distinct.
      reflexivity. }
    rewrite Hnorm. now apply define_all_present.
  - unfold define_all at 1. cbn [fold_left]. now rewrite define_all_fresh.
  - change (define_all [] []) with (@nil (string * JsValue)).
    now rewrite define_all_fresh.
Qed.

(* ================================================================== *)
(** ** Further theorems: what a store leaves alone *)

Lemma call_not_bound {A} (this : DynamicDB.t) (method : Owner -> JS A)
    (h : Heap) :
  (forall o, DynamicDB.PROPERTIES this <> Some (HostObject o)) ->
  exists e, Host.call (DynamicDB.PROPERTIES this) method h = (Throw e, h).
Proof.
  intros Hno. destruct (DynamicDB.PROPERTIES this) as [[o | pv] |];
    [now elim (Hno o) | |]; now eexists.
Qed.

Lemma hasKey_not_bound (this : DynamicDB.t) (key : JsValue) (h : Heap) :
  (forall o, DynamicDB.PROPERTIES this <> Some (HostObject o)) ->
  exists e, DynamicDB.hasKey this key h = (Throw e, h).
Proof.
  intros Hno. unfold DynamicDB.hasKey, DynamicDB.keys, bind.
  destruct (call_not_bound this Host.getDynamicPropertyIds h Hno) as (e & ->).
  now exists e.
Qed.

Lemma bound_or_not (this : DynamicDB.t) :
  (exists o, DynamicDB.PROPERTIES this = Some (HostObject o)) \/
  (forall o, DynamicDB.PROPERTIES this <> Some (HostObject o)).
Proof.
  destruct (DynamicDB.PROPERTIES this) as [[o | pv] |];
    [left; now exists o | right; discriminate | right; discriminate].
Qed.

Lemma delete_bound (this : DynamicDB.t) (o : Owner) (s : string) (h : Heap) :
  DynamicDB.PROPERTIES this = Some (HostObject o) ->
  DynamicDB.delete this (VString s) h
  = if includes (map fst (bags h o)) (VString s)
    then (Normal true, Host.with_bag h o (Host.remove s (bags h o)))
    else (DynamicDB.log this "DynamicDB" "delete"
            ("Key with name '" ++ s ++ "' doesn't exist.") ;;;
          ret false) h.
Proof.
  intros Hb. unfold DynamicDB.delete. cbn [Validator.isString negb].
  unfold bind at 1. rewrite (hasKey_bound this o Hb).
  destruct (includes (map fst (bags h o)) (VString s)); cbn [negb];
    [|reflexivity].
  unfold bind, Host.call. rewrite Hb. reflexivity.
Qed.

(** Every way [delete] can end. *)
Lemma delete_outcome (this : DynamicDB.t) (key : JsValue) (h : Heap) :
  same_store h (snd (DynamicDB.delete this key h)) \/
  exists o s,
    DynamicDB.PROPERTIES this = Some (HostObject o) /\
    snd (DynamicDB.delete this key h)
    = Host.with_bag h o (Host.remove s (bags h o)).
Proof.
  destruct (Validator.isString key) eqn:Hk.
  2:{ left. unfold DynamicDB.delete. rewrite Hk. cbn [negb].
      now destruct (log_then_ret this "DynamicDB" "delete"
                      "Key must be a string." false h)
        as (h' & -> & Hs). }
  destruct key as [| | | | |s| |]; try discriminate Hk.
  destruct (bound_or_not this) as [[o Hb] | Hno].
  - rewrite (delete_bound this o s h Hb).
    destruct (includes (map fst (bags h o)) (VString s)).
    + right. now exists o, s.
    + left. now destruct (log_then_ret this "DynamicDB" "delete"
                            ("Key with name '" ++ s ++ "' doesn't exist.")
                            false h)
              as (h' & -> & Hs).
  - left. unfold DynamicDB.delete. cbn [Validator.isString negb].
    unfold bind.
    destruct (hasKey_not_bound this (VString s) h Hno) as (e & ->).
    apply same_store_refl.
Qed.

(** X17. Isolation: no call of [set], [push], [delete] or [reset] on a
    store changes the bag of an owner the store is not bound to. *)
Theorem mutators_touch_own_bag_only (this : DynamicDB.t) (o' : Owner)
    (key data : JsValue) (h : Heap) :
  DynamicDB.PROPERTIES this <> Some (HostObject o') ->
  bags (snd (DynamicDB.set this key data h)) o' = bags h o' /\
  bags (snd (DynamicDB.push this key data h)) o' = bags h o' /\
  bags (snd (DynamicDB.delete this key h)) o' = bags h o' /\
  bags (snd (DynamicDB.reset this h)) o' = bags h o'.
Proof.
  intros Hother.
  assert (Hset : forall d g,
            bags (snd (DynamicDB.set this key d g)) o' = bags g o').
  { intros d g.
    destruct (set_outcome this key d g)
      as [(g' & m & -> & (Hb & _) & _) | (o & s & t & Hp & _ & _ & _ & _ & ->)];
      cbn [snd].
    - now rewrite Hb.
    - apply bags_with_bag_other. intros ->. contradiction. }
  split; [apply Hset|]. split; [|split].
  - unfold DynamicDB.push.
    destruct (Validator.isString key); cbn [negb].
    2:{ destruct (log_then_ret this "DynamicDB" "push"
                    "Key must be a string." false h)
          as (h' & -> & (Hb' & _)). cbn [snd]. now rewrite Hb'. }
    destruct (Validator.isObject data); cbn [negb].
    2:{ destruct (log_then_ret this "DynamicDB" "push"
                    "Data must be a object." false h)
          as (h' & -> & (Hb' & _)). cbn [snd]. now rewrite Hb'. }
    unfold bind. pose proof (get_keeps_slots this key h) as (Hb & _).
    destruct (DynamicDB.get this key h) as [[existing| |] h0];
      cbn [snd] in *; try (now rewrite Hb).
    now rewrite Hset, Hb.
  - destruct (delete_outcome this key h) as [(Hb' & _) | (o & s & Hp & ->)];
      [now rewrite Hb'|].
    apply bags_with_bag_other. intros ->. contradiction.
  - unfold DynamicDB.reset.
    destruct (DynamicDB.PROPERTIES this) as [[o | pv] |]; try reflexivity.
    cbn [Host.call]. unfold Host.clearDynamicProperties. cbn [snd].
    apply bags_with_bag_other. intros ->. now elim Hother.
Qed.

Lemma entries_next_keeps_heap (this : DynamicDB.t) (fuel key_idx : nat)
    (h : Heap) :
  snd (DynamicDB.entries_next fuel this key_idx h) = h.
Proof.
  destruct fuel as [|fuel]; [reflexivity|].
  destruct (bound_or_not this) as [[o Hb] | Hno].
  - destruct (nth_error (map fst (bags h o)) key_idx) as [k|] eqn:Hk.
    + rewrite (entries_next_at this o fuel key_idx k h Hb Hk).
      now destruct (JSON.parse _).
    + apply nth_error_None in Hk. rewrite length_map in Hk.
      rewrite (entries_next_bound this o fuel key_idx h Hb).
      destruct (Nat.ltb_spec key_idx (List.length (bags h o))); [lia|].
      reflexivity.
  - cbn [DynamicDB.entries_next]. unfold bind at 1, DynamicDB.keys.
    now destruct (call_not_bound this Host.getDynamicPropertyIds h Hno)
      as (e & ->).
Qed.

Lemma entries_from_keeps_heap (this : DynamicDB.t) (fuel key_idx : nat)
    (h : Heap) :
  snd (DynamicDB.entries_from fuel this key_idx h) = h.
Proof.
  revert key_idx. induction fuel as [|fuel IH]; intros key_idx;
    [reflexivity|].
  cbn [DynamicDB.entries_from]. unfold bind at 1.
  pose proof (entries_next_keeps_heap this (S fuel) key_idx h) as Hn.
  destruct (DynamicDB.entries_next (S fuel) this key_idx h)
    as [[[[entry|] idx']| |] h1]; cbn [snd] in Hn; subst h1;
    try reflexivity.
  unfold bind. specialize (IH idx').
  destruct (DynamicDB.entries_from fuel this idx' h) as [[rest| |] h2];
    cbn [snd] in IH; now subst h2.
Qed.

(** X18. Reads write nothing: on any store, bound or not, and whatever
    the outcome, [keys], [bytes], [hasKey], every [next()] of
    [entries()] and a spread of it leave the heap exactly as it was;
    [get] changes no slot, and adds to the console only when it returns
    [undefined]. *)
Theorem reads_leave_heap (this : DynamicDB.t) (h : Heap) :
  snd (DynamicDB.keys this h) = h /\
  snd (DynamicDB.bytes this h) = h /\
  (forall key, snd (DynamicDB.hasKey this key h) = h) /\
  (forall fuel key_idx, snd (DynamicDB.entries_next fuel this key_idx h) = h) /\
  (forall fuel, snd (DynamicDB.entries_arr fuel this h) = h) /\
  (forall key,
     bags (snd (DynamicDB.get this key h)) = bags h /\
     (fst (DynamicDB.get this key h) = Normal VUndefined \/
      snd (DynamicDB.get this key h) = h)).
Proof.
  assert (Hkeys : snd (DynamicDB.keys this h) = h).
  { unfold DynamicDB.keys, Host.call.
    now destruct (DynamicDB.PROPERTIES this) as [[o | pv] |]. }
  split; [exact Hkeys|].
  split.
  { unfold DynamicDB.bytes, Host.call.
    now destruct (DynamicDB.PROPERTIES this) as [[o | pv] |]. }
  split.
  { intros key. unfold DynamicDB.hasKey, bind.
    now destruct (DynamicDB.keys this h) as [[ks| |] h1]. }
  split; [intros; apply entries_next_keeps_heap|].
  split; [intros; apply entries_from_keeps_heap|].
  intros key. split; [apply get_keeps_slots|].
  destruct (Validator.isString key) eqn:Hk;
    [|left; now apply get_not_string].
  destruct key as [| | | | |s| |]; try discriminate Hk.
  destruct (bound_or_not this) as [[o Hb] | Hno].
  - destruct (lookup s (bags h o)) as [text|] eqn:El.
    + right. now rewrite (get_present this o Hb s text h El).
    + left. now destruct (get_absent this o Hb s h El) as (h' & -> & _).
  - right. unfold DynamicDB.get. cbn [Validator.isString negb].
    unfold bind.
    now destruct (hasKey_not_bound this (VString s) h Hno) as (e & ->).
Qed.

(* ================================================================== *)
(** ** The further theorems at concrete inputs *)

(** A [set] on the key k of the two-slot bag leaves [get] on the key
    first as it was. *)
Lemma set_leaves_other_keys_witness :
  fst (DynamicDB.get world_db (VString "first")
         (snd (DynamicDB.set world_db (VString "k") existing_ab
                 two_slot_heap)))
  = fst (DynamicDB.get world_db (VString "first") two_slot_heap).
Proof.
  apply (set_leaves_other_keys world_db TheWorld "k" existing_ab
           (VString "first") two_slot_heap);
    [reflexivity | discriminate].
Defined.

(** A first [set] on an empty bag: the key is there, and a key that
    was not set is as absent as before. *)
Lemma set_adds_key_only_witness :
  DynamicDB.hasKey world_db (VString "k") after_set_existing
    = (Normal true, after_set_existing) /\
  fst (DynamicDB.hasKey world_db (VString "first") after_set_existing)
    = fst (DynamicDB.hasKey world_db (VString "first") empty_heap).
Proof.
  destruct (set_adds_key_only world_db TheWorld "k" existing_ab empty_heap
              after_set_existing eq_refl eq_refl)
    as [Hk Hother].
  split; [exact Hk|]. apply Hother. discriminate.
Defined.

(** [get] on a key the two-slot bag does not have. *)
Lemma get_undefined_iff_witness :
  fst (DynamicDB.get world_db (VString "absent") two_slot_heap)
  = Normal VUndefined.
Proof.
  apply (proj2 (get_undefined_iff world_db TheWorld (VString "absent")
                  two_slot_heap eq_refl)).
  right. reflexivity.
Defined.


(** [reset] of the two-slot bag. *)
Lemma reset_empties_store_witness :
  exists h',
    DynamicDB.reset world_db two_slot_heap = (Normal tt, h') /\
    DynamicDB.keys world_db h' = (Normal [], h').
Proof.
  destruct (reset_empties_store world_db TheWorld two_slot_heap eq_refl)
    as (h' & Hr & _ & _ & Hk & _).
  now exists h'.
Defined.

(** A spread of [entries()] over the two-slot bag. *)
Lemma entries_collects_slots_witness :
  DynamicDB.entries_arr 3 world_db two_slot_heap
  = (Normal [(VString "first", VObject [("a", VNumber 1)]);
             (VString "last", VObject [("a", VNumber 1)])],
     two_slot_heap).
Proof.
  apply (entries_collects_slots world_db TheWorld 3 two_slot_heap);
    [reflexivity | vm_compute; lia].
Defined.

(** The same spread, from the values the two texts parse to. *)
Lemma entries_lists_every_slot_witness :
  DynamicDB.entries_arr 3 world_db two_slot_heap
  = (Normal [(VString "first", VObject [("a", VNumber 1)]);
             (VString "last", VObject [("a", VNumber 1)])],
     two_slot_heap).
Proof.
  apply (entries_lists_every_slot world_db TheWorld 3 two_slot_heap
           [VObject [("a", VNumber 1)]; VObject [("a", VNumber 1)]]);
    [reflexivity | vm_compute; lia | reflexivity |].
  repeat constructor.
Defined.

(** [find] for the key last in the two-slot bag. *)
Lemma find_first_accepted_witness :
  DynamicDB.find 3 world_db (fun value key => ret (is_last value key))
    two_slot_heap
  = (Normal (VObject [("a", VNumber 1)]), two_slot_heap).
Proof.
  apply (find_first_accepted world_db TheWorld 3 is_last two_slot_heap);
    [reflexivity | vm_compute; lia].
Defined.

(** [forEach] over the two-slot bag with the callback that clears the
    store: both pairs are visited. *)
Lemma forEach_visits_slots_witness :
  DynamicDB.forEach 3 world_db reset_and_report two_slot_heap
  = visit_each reset_and_report
      [(VString "first", VObject [("a", VNumber 1)]);
       (VString "last", VObject [("a", VNumber 1)])]
      two_slot_heap.
Proof.
  apply (forEach_visits_slots world_db TheWorld 3 reset_and_report
           two_slot_heap);
    [reflexivity | vm_compute; lia].
Defined.

(** [push] with a number for the key. *)
Lemma push_rejects_invalid_witness :
  exists h' m,
    DynamicDB.push world_db (VNumber 1) (VObject []) two_slot_heap
      = (Normal false, h') /\
    bags h' = bags two_slot_heap /\
    console h'
    = (console two_slot_heap ++ logged world_db (diagnostic_of "push" m))%list.
Proof.
  apply (push_rejects_invalid world_db (VNumber 1) (VObject [])
           two_slot_heap).
  left. reflexivity.
Defined.

(** [push] onto the corrupt slot. *)
Lemma push_corrupt_slot_throws_witness :
  DynamicDB.push world_db (VString "k") pushed_bc corrupt_heap
  = (Throw (SyntaxError "Unexpected token in JSON"), corrupt_heap).
Proof.
  apply (push_corrupt_slot_throws world_db TheWorld "k" "{"); reflexivity.
Defined.

(** The merge example: [get] after the [push]. *)
Lemma push_then_get_witness :
  DynamicDB.get world_db (VString "k") after_push_bc
  = (Normal merged_abc, after_push_bc).
Proof.
  apply (push_then_get world_db "k" pushed_bc existing_ab after_set_existing
           after_set_existing after_push_bc);
    reflexivity.
Defined.

(** The laws on the two objects of the merge example. *)
Lemma dataMerge_laws_witness :
  DynamicDB.dataMerge world_db
    (DynamicDB.dataMerge world_db existing_ab pushed_bc) pushed_bc
  = DynamicDB.dataMerge world_db existing_ab pushed_bc.
Proof.
  exact (proj1 (proj2 (dataMerge_laws world_db existing_ab pushed_bc
                         eq_refl))).
Defined.

(** A [set] on the world store leaves the bag of a player alone. *)
Lemma mutators_touch_own_bag_only_witness :
  bags (snd (DynamicDB.set world_db (VString "k") existing_ab empty_heap))
    (APlayer 1)
  = bags empty_heap (APlayer 1).
Proof.
  apply (mutators_touch_own_bag_only world_db (APlayer 1) (VString "k")
           existing_ab empty_heap).
  discriminate.
Defined.
